(** * Product API (Express server): request pipeline, query engine, statistics

    A shallow embedding of [src/server.js].

    Modelling conventions.
    - JavaScript strings are [string]s of ASCII code units; [trim],
      [toLowerCase] and the whitespace skipped by [parseInt]/[parseFloat]
      act on the ASCII range (TAB, LF, VT, FF, CR, SP).
    - JavaScript numbers are exact: prices are rationals ([Q]), counts and
      page numbers are integers ([Z]); [NaN] and the infinities are explicit
      constructors where the code can produce them.  Rounding and overflow of
      IEEE doubles are outside the model.
    - The in-memory [products] array is a [list product] threaded through
      the handlers; request bodies are finite maps from field names to JSON
      values; the [byCategory] object of the statistics route is a finite map
      of own properties under [Object.prototype]. *)

From Stdlib Require Import ZArith QArith Qround Ascii String List Lia Bool.
From stdpp Require Import base option gmap strings list fin_maps.

Open Scope string_scope.
Open Scope Z_scope.

(** ** JavaScript strings *)

Module JsString.

Definition code (c : ascii) : N := N_of_ascii c.

(** White space and line terminators of the ASCII range. *)
Definition is_space (c : ascii) : bool :=
  let n := code c in
  ((n =? 9) || (n =? 10) || (n =? 11) || (n =? 12) || (n =? 13) || (n =? 32))%N.

Fixpoint trimStart (s : string) : string :=
  match s with
  | String c s' => if is_space c then trimStart s' else s
  | EmptyString => EmptyString
  end.

Fixpoint trimEnd (s : string) : string :=
  match s with
  | String c s' =>
      match trimEnd s' with
      | EmptyString => if is_space c then EmptyString else String c EmptyString
      | t => String c t
      end
  | EmptyString => EmptyString
  end.

(** [String.prototype.trim] *)
Definition trim (s : string) : string := trimEnd (trimStart s).

Definition lower (c : ascii) : ascii :=
  let n := code c in
  if ((65 <=? n) && (n <=? 90))%N then ascii_of_N (n + 32) else c.

(** [String.prototype.toLowerCase] *)
Fixpoint toLowerCase (s : string) : string :=
  match s with
  | String c s' => String (lower c) (toLowerCase s')
  | EmptyString => EmptyString
  end.

(** [String.prototype.includes]: [sub] occurs somewhere in [s]. *)
Fixpoint includes (s sub : string) : bool :=
  String.prefix sub s ||
  match s with
  | String _ s' => includes s' sub
  | EmptyString => false
  end.

(** [a < b] on two strings: lexicographic on code units. *)
Definition lt (a b : string) : bool := String.ltb a b.

(** Truthiness of a string: only the empty string is falsy. *)
Definition truthy (s : string) : bool :=
  match s with EmptyString => false | _ => true end.

(** [Array.prototype.join] on strings. *)
Fixpoint join (sep : string) (l : list string) : string :=
  match l with
  | [] => ""
  | [x] => x
  | x :: rest => x ++ sep ++ join sep rest
  end.

End JsString.

(** ** JavaScript numbers and the permissive parsers *)

Module JsNumber.

(** The result of [parseFloat]: a number value. *)
Inductive num : Type :=
| NaN
| Inf (negative : bool)
| Fin (q : Q).

(** [x >= y] and [x <= y] with a finite left operand; every comparison
    with [NaN] is false. *)
Definition ge (x : Q) (y : num) : bool :=
  match y with
  | NaN => false
  | Inf negative => negative
  | Fin q => Qle_bool q x
  end.

Definition le (x : Q) (y : num) : bool :=
  match y with
  | NaN => false
  | Inf negative => negb negative
  | Fin q => Qle_bool x q
  end.

(** Value of a digit character in a radix up to 36. *)
Definition digit_val (c : ascii) : option Z :=
  let n := Z.of_N (N_of_ascii c) in
  if (48 <=? n) && (n <=? 57) then Some (n - 48)
  else if (97 <=? n) && (n <=? 122) then Some (n - 87)
  else if (65 <=? n) && (n <=? 90) then Some (n - 55)
  else None.

(** Longest prefix of radix-[r] digits, with the rest of the string. *)
Fixpoint span_digits (r : Z) (s : string) : list Z * string :=
  match s with
  | String c s' =>
      match digit_val c with
      | Some d =>
          if d <? r then
            let '(ds, rest) := span_digits r s' in (d :: ds, rest)
          else ([], s)
      | None => ([], s)
      end
  | EmptyString => ([], s)
  end.

Definition digits_value (r : Z) (ds : list Z) : Z :=
  fold_left (fun acc d => acc * r + d) ds 0.

(** Optional sign in front of a numeric literal. *)
Definition strip_sign (s : string) : bool * string :=
  match s with
  | String "-" rest => (true, rest)
  | String "+" rest => (false, rest)
  | _ => (false, s)
  end.

(** [parseInt(s)] with no radix argument; [None] is [NaN]. *)
Definition parseInt (s : string) : option Z :=
  let '(negative, s1) := strip_sign (JsString.trimStart s) in
  let '(r, s2) :=
    match s1 with
    | String "0" (String "x" rest) => (16, rest)
    | String "0" (String "X" rest) => (16, rest)
    | _ => (10, s1)
    end in
  match fst (span_digits r s2) with
  | [] => None
  | ds => Some (if negative then - digits_value r ds else digits_value r ds)
  end.

(** [parseInt(undefined)] reads the string "undefined": [NaN]. *)
Definition parseInt_param (p : option string) : option Z :=
  match p with
  | Some s => parseInt s
  | None => None
  end.

(** [parseInt(x) || d]: [NaN] and [0] are falsy. *)
Definition or_default (n : option Z) (d : Z) : Z :=
  match n with
  | Some 0 => d
  | Some z => z
  | None => d
  end.

(** Exponent part [e], [e+], [e-] followed by digits; [0] when there is
    none (the literal then ends before the [e]). *)
Definition exponent (s : string) : Z :=
  match s with
  | String c rest =>
      if (Ascii.eqb c "e" || Ascii.eqb c "E")%bool then
        let '(negative, rest') := strip_sign rest in
        match fst (span_digits 10 rest') with
        | [] => 0
        | ds => if negative then - digits_value 10 ds else digits_value 10 ds
        end
      else 0
  | EmptyString => 0
  end.

(** [parseFloat(s)]: the longest prefix that is a decimal literal. *)
Definition parseFloat (s : string) : num :=
  let '(negative, s1) := strip_sign (JsString.trimStart s) in
  if String.prefix "Infinity" s1 then Inf negative
  else
    let '(ip, s2) := span_digits 10 s1 in
    let '(fp, s3) :=
      match s2 with
      | String "." rest => span_digits 10 rest
      | _ => ([], s2)
      end in
    match ip, fp with
    | [], [] => NaN
    | _, _ =>
        let m := (inject_Z (digits_value 10 (ip ++ fp))
                  / inject_Z (10 ^ Z.of_nat (length fp)))%Q in
        let v := (m * Qpower (10 # 1) (exponent s3))%Q in
        Fin (if negative then Qopp v else v)
    end.

End JsNumber.

(** ** JSON values of a request body *)

Inductive value : Type :=
| VUndefined
| VNull
| VBool (b : bool)
| VNum (q : Q)
| VStr (s : string)
| VObject.

(** [typeof v] *)
Definition typeof (v : value) : string :=
  match v with
  | VUndefined => "undefined"
  | VNull => "object"
  | VBool _ => "boolean"
  | VNum _ => "number"
  | VStr _ => "string"
  | VObject => "object"
  end.

(** [!v] is [negb (truthy v)]. *)
Definition truthy (v : value) : bool :=
  match v with
  | VUndefined => false
  | VNull => false
  | VBool b => b
  | VNum q => negb (Qeq_bool q 0)
  | VStr s => JsString.truthy s
  | VObject => true
  end.

(** [v === undefined] *)
Definition is_undefined (v : value) : bool :=
  match v with VUndefined => true | _ => false end.

(** [v.trim().length === 0]; only evaluated on strings (the tests in
    front of it short-circuit on anything else). *)
Definition trim_is_empty (v : value) : bool :=
  match v with
  | VStr s => (String.length (JsString.trim s) =? 0)%nat
  | _ => false
  end.

(** [v < 0]; only evaluated on numbers. *)
Definition is_negative (v : value) : bool :=
  match v with
  | VNum q => negb (Qle_bool 0 q)
  | _ => false
  end.

(** A parsed JSON object: own fields by name; an absent field reads as
    [undefined] (none of the names the code reads is a member of
    [Object.prototype]). *)
Definition get (o : gmap string value) (k : string) : value :=
  default VUndefined (o !! k).

(** ** Error classes *)

Record error : Type := mkError {
  name : string;
  statusCode : option Z;
  message : string
}.

Definition NotFoundError (msg : string) : error :=
  {| name := "NotFoundError"; statusCode := Some 404; message := msg |}.

Definition ValidationError (msg : string) : error :=
  {| name := "ValidationError"; statusCode := Some 400; message := msg |}.

Definition AuthenticationError (msg : string) : error :=
  {| name := "AuthenticationError"; statusCode := Some 401; message := msg |}.

(** An exception of the runtime caught by a handler's [try]/[catch]; it
    carries no [statusCode]. *)
Definition TypeError (msg : string) : error :=
  {| name := "TypeError"; statusCode := None; message := msg |}.

(** ** Products *)

Module Product.
Record t : Type := mk {
  id : string;
  name : string;
  description : string;
  price : Q;
  category : string;
  inStock : bool
}.
End Product.

Abbreviation product := Product.t.

Definition sample_products : list product :=
  [ Product.mk "1" "Laptop" "High-performance laptop with 16GB RAM"
      (1200 # 1) "electronics" true;
    Product.mk "2" "Smartphone" "Latest model with 128GB storage"
      (800 # 1) "electronics" true;
    Product.mk "3" "Coffee Maker" "Programmable coffee maker with timer"
      (50 # 1) "kitchen" false;
    Product.mk "4" "Desk Chair" "Ergonomic office chair with lumbar support"
      (250 # 1) "furniture" true;
    Product.mk "5" "Headphones" "Noise-canceling wireless headphones"
      (150 # 1) "electronics" true ].

(** ** Helper functions *)

(** [Array.prototype.slice(start, end)]: a negative index counts from the
    end of the array, both ends are clamped to the array. *)
Definition slice {A : Type} (l : list A) (s e : Z) : list A :=
  let len := Z.of_nat (length l) in
  let k := if s <? 0 then Z.max (len + s) 0 else Z.min s len in
  let final := if e <? 0 then Z.max (len + e) 0 else Z.min e len in
  let count := Z.max (final - k) 0 in
  take (Z.to_nat count) (drop (Z.to_nat k) l).

Definition paginate {A : Type} (array : list A) (page limit : Z) : list A :=
  let startIndex := (page - 1) * limit in
  let endIndex := page * limit in
  slice array startIndex endIndex.

(** [Array.prototype.findIndex]; [None] is [-1]. *)
Fixpoint findIndex {A : Type} (f : A -> bool) (l : list A) : option nat :=
  match l with
  | [] => None
  | x :: l' => if f x then Some O else S <$> findIndex f l'
  end.

Definition findProductById (products : list product) (id : string) : option product :=
  List.find (fun p => String.eqb (Product.id p) id) products.

(** [Array.prototype.splice(i, 1)] as the new array content. *)
Definition splice1 {A : Type} (i : nat) (l : list A) : list A :=
  take i l ++ drop (S i) l.

(** ** Requests, responses and the mutable state of the process *)

(** The methods that have a route. *)
Inductive method : Type := GET | POST | PUT | DELETE.

Definition method_name (m : method) : string :=
  match m with GET => "GET" | POST => "POST" | PUT => "PUT" | DELETE => "DELETE" end.

(** A request after [bodyParser.json()].  [url] is the text the logger
    prints and [path] the segments the router matches on; [x_api_key] is
    [req.headers['x-api-key']], [body] the parsed JSON object and [query]
    the query parameters, each given once.  [now] is what
    [new Date().toISOString()] returns while the request is served and
    [uuid] what [uuidv4()] returns. *)
Record request : Type := mkRequest {
  req_method : method;
  url : string;
  path : list string;
  x_api_key : option string;
  body : gmap string value;
  query : gmap string string;
  now : string;
  uuid : string
}.

Module Page.
Record t : Type := mk {
  currentPage : Z;
  totalPages : Z;
  totalProducts : Z;
  limit : Z;
  hasNextPage : bool;
  hasPrevPage : bool
}.
End Page.

Module Stats.
Record entry : Type := mkEntry { count : Z; value : Q }.

Record t : Type := mk {
  totalProducts : Z;
  inStock : Z;
  outOfStock : Z;
  byCategory : gmap string entry;
  averagePrice : Q;
  totalValue : Q
}.
End Stats.

Inductive payload : Type :=
| Welcome
| Health (timestamp : string)
| Listing (data : list product) (pagination : Page.t)
| Statistics (data : Stats.t)
| Single (data : product)
| Changed (msg : string) (data : product)
| Failure (err : string).

Record response : Type := mkResponse {
  status : Z;
  success : bool;
  content : payload
}.

Record world : Type := mkWorld {
  products : list product;
  console : list string
}.

(** What a middleware or handler does with the request: call [next()],
    call [next(err)], or send the response. *)
Inductive outcome : Type :=
| Next
| NextErr (e : error)
| Send (r : response).

Definition respond (st : Z) (p : payload) : outcome :=
  Send {| status := st; success := true; content := p |}.

(** [Array.prototype.push] *)
Definition push {A : Type} (l : list A) (x : A) : list A := (l ++ [x])%list.

(** ** Custom middleware *)

Definition requestLogger (req : request) (w : world) : outcome * world :=
  let line := "[" ++ now req ++ "] " ++ method_name (req_method req) ++ " " ++ url req in
  (Next, {| products := products w; console := push (console w) line |}).

Section Middleware.

(** [process.env.API_KEY]; [None] when the variable is not set. *)
Variable API_KEY : option string.

Definition authenticate (req : request) : outcome :=
  let apiKey := x_api_key req in
  match apiKey with
  | None => NextErr (AuthenticationError "API key is required")
  | Some k =>
      if negb (JsString.truthy k) then
        NextErr (AuthenticationError "API key is required")
      else if negb (bool_decide (Some k = API_KEY)) then
        NextErr (AuthenticationError "Invalid API key")
      else Next
  end.

End Middleware.

(** The five tests of [validateProduct], one per field. *)
Definition name_invalid (name : value) : bool :=
  negb (truthy name) || negb (String.eqb (typeof name) "string") || trim_is_empty name.

Definition description_invalid (description : value) : bool :=
  negb (truthy description) || negb (String.eqb (typeof description) "string").

Definition price_invalid (price : value) : bool :=
  is_undefined price || negb (String.eqb (typeof price) "number") || is_negative price.

Definition category_invalid (category : value) : bool :=
  negb (truthy category) || negb (String.eqb (typeof category) "string")
  || trim_is_empty category.

Definition inStock_invalid (inStock : value) : bool :=
  negb (is_undefined inStock) && negb (String.eqb (typeof inStock) "boolean").

(** The [errors] array of [validateProduct] once all five tests ran. *)
Definition validation_errors (b : gmap string value) : list string :=
  let name := get b "name" in
  let description := get b "description" in
  let price := get b "price" in
  let category := get b "category" in
  let inStock := get b "inStock" in
  let errors : list string := [] in
  let errors :=
    if name_invalid name
    then push errors "Name is required and must be a non-empty string"
    else errors in
  let errors :=
    if description_invalid description
    then push errors "Description is required and must be a string"
    else errors in
  let errors :=
    if price_invalid price
    then push errors "Price is required and must be a non-negative number"
    else errors in
  let errors :=
    if category_invalid category
    then push errors "Category is required and must be a non-empty string"
    else errors in
  let errors :=
    if inStock_invalid inStock
    then push errors "inStock must be a boolean value"
    else errors in
  errors.

Definition validateProduct (req : request) : outcome :=
  let errors := validation_errors (body req) in
  if (0 <? length errors)%nat then
    NextErr (ValidationError (JsString.join ", " errors))
  else Next.

(** ** GET /api/products: search, filters, sorting, pagination *)

(** [a[sortField] < b[sortField]] for two product objects.  Strings compare
    by code units, numbers numerically, booleans as 0 and 1.  Any other
    field name reads the same value on both sides ([undefined], or a member
    inherited from [Object.prototype]), and the comparison is false. *)
Definition field_lt (sortField : string) (a b : product) : bool :=
  if String.eqb sortField "id" then JsString.lt (Product.id a) (Product.id b)
  else if String.eqb sortField "name" then JsString.lt (Product.name a) (Product.name b)
  else if String.eqb sortField "description" then
    JsString.lt (Product.description a) (Product.description b)
  else if String.eqb sortField "price" then
    negb (Qle_bool (Product.price b) (Product.price a))
  else if String.eqb sortField "category" then
    JsString.lt (Product.category a) (Product.category b)
  else if String.eqb sortField "inStock" then
    negb (Product.inStock a) && Product.inStock b
  else false.

(** The comparator handed to [sort]. *)
Definition compareFn (sortField : string) (sortOrder : Z) (a b : product) : Z :=
  if field_lt sortField a b then -1 * sortOrder
  else if field_lt sortField b a then 1 * sortOrder
  else 0.

(** [Array.prototype.sort(cmp)] is a stable sort: an element moves behind
    another one only when the comparator says it is greater. *)
Fixpoint insert_sorted {A : Type} (cmp : A -> A -> Z) (x : A) (l : list A) : list A :=
  match l with
  | [] => [x]
  | y :: l' => if 0 <? cmp x y then y :: insert_sorted cmp x l' else x :: l
  end.

Fixpoint sort {A : Type} (cmp : A -> A -> Z) (l : list A) : list A :=
  match l with
  | [] => []
  | x :: l' => insert_sorted cmp x (sort cmp l')
  end.

(** [if (param) { list = list.filter(keep(param)) }]: the stage is skipped
    when the parameter is absent or the empty string. *)
Definition filter_if_truthy (param : option string)
    (keep : string -> product -> bool) (l : list product) : list product :=
  match param with
  | Some s => if JsString.truthy s then List.filter (keep s) l else l
  | None => l
  end.

Definition matches_search (search : string) (p : product) : bool :=
  let searchTerm := JsString.toLowerCase search in
  JsString.includes (JsString.toLowerCase (Product.name p)) searchTerm
  || JsString.includes (JsString.toLowerCase (Product.description p)) searchTerm.

Definition matches_category (category : string) (p : product) : bool :=
  String.eqb (JsString.toLowerCase (Product.category p)) (JsString.toLowerCase category).

Definition matches_minPrice (minPrice : string) (p : product) : bool :=
  JsNumber.ge (Product.price p) (JsNumber.parseFloat minPrice).

Definition matches_maxPrice (maxPrice : string) (p : product) : bool :=
  JsNumber.le (Product.price p) (JsNumber.parseFloat maxPrice).

(** The search, exact-match and range stages. *)
Definition filterProducts (products : list product) (q : gmap string string) : list product :=
  let filteredProducts := products in
  let filteredProducts := filter_if_truthy (q !! "search") matches_search filteredProducts in
  let filteredProducts := filter_if_truthy (q !! "category") matches_category filteredProducts in
  let filteredProducts :=
    match q !! "inStock" with
    | Some s =>
        let inStockValue := String.eqb s "true" in
        List.filter (fun p => Bool.eqb (Product.inStock p) inStockValue) filteredProducts
    | None => filteredProducts
    end in
  let filteredProducts := filter_if_truthy (q !! "minPrice") matches_minPrice filteredProducts in
  let filteredProducts := filter_if_truthy (q !! "maxPrice") matches_maxPrice filteredProducts in
  filteredProducts.

(** The sorting stage. *)
Definition sortProducts (filteredProducts : list product) (q : gmap string string) : list product :=
  match q !! "sortBy" with
  | Some sortField =>
      if JsString.truthy sortField then
        let sortOrder := if bool_decide (q !! "order" = Some "desc") then -1 else 1 in
        sort (compareFn sortField sortOrder) filteredProducts
      else filteredProducts
  | None => filteredProducts
  end.

(** [Math.ceil(a / b)] on two integers, [b] not zero. *)
Definition ceil_div (a b : Z) : Z := Qceiling (inject_Z a / inject_Z b).

Definition page_of (q : gmap string string) : Z :=
  JsNumber.or_default (JsNumber.parseInt_param (q !! "page")) 1.

Definition limit_of (q : gmap string string) : Z :=
  JsNumber.or_default (JsNumber.parseInt_param (q !! "limit")) 10.

Definition getProducts (products : list product) (q : gmap string string)
    : list product * Page.t :=
  let filteredProducts := sortProducts (filterProducts products q) q in
  let page := page_of q in
  let limit := limit_of q in
  let totalProducts := Z.of_nat (length filteredProducts) in
  let totalPages := ceil_div totalProducts limit in
  let paginatedProducts := paginate filteredProducts page limit in
  (paginatedProducts,
   {| Page.currentPage := page;
      Page.totalPages := totalPages;
      Page.totalProducts := totalProducts;
      Page.limit := limit;
      Page.hasNextPage := page <? totalPages;
      Page.hasPrevPage := 1 <? page |}).

Definition query_of (l : list (string * string)) : gmap string string := list_to_map l.

(** ** GET /api/products/stats *)

(** Members every object literal inherits from [Object.prototype]; all of
    them are functions or objects, hence truthy. *)
Definition Object_prototype : list string :=
  [ "constructor"; "__proto__"; "hasOwnProperty"; "isPrototypeOf";
    "propertyIsEnumerable"; "toLocaleString"; "toString"; "valueOf";
    "__defineGetter__"; "__defineSetter__"; "__lookupGetter__"; "__lookupSetter__" ].

Definition inherited (k : string) : bool :=
  existsb (String.eqb k) Object_prototype.

(** [!byCategory[k]]: the lookup finds an own entry (an object, truthy) or
    walks up to [Object.prototype]. *)
Definition lookup_is_falsy (byCategory : gmap string Stats.entry) (k : string) : bool :=
  match byCategory !! k with
  | Some _ => false
  | None => negb (inherited k)
  end.

(** One iteration of [products.forEach].  When the category names an
    inherited member no own entry is created, and the two updates land on
    the inherited object instead of [byCategory]. *)
Definition count_product (byCategory : gmap string Stats.entry) (p : product)
    : gmap string Stats.entry :=
  let c := Product.category p in
  let byCategory :=
    if lookup_is_falsy byCategory c
    then <[c := Stats.mkEntry 0 0]> byCategory
    else byCategory in
  match byCategory !! c with
  | Some e =>
      <[c := Stats.mkEntry (Stats.count e + 1) (Stats.value e + Product.price p)]> byCategory
  | None => byCategory
  end.

Definition getStats (products : list product) : Stats.t :=
  let totalProducts := Z.of_nat (length products) in
  let byCategory := fold_left count_product products ∅ in
  let totalValue := fold_left (fun sum p => (sum + Product.price p)%Q) products 0%Q in
  let averagePrice :=
    if 0 <? totalProducts then (totalValue / inject_Z totalProducts)%Q else 0%Q in
  {| Stats.totalProducts := totalProducts;
     Stats.inStock := Z.of_nat (length (List.filter (fun p => Product.inStock p) products));
     Stats.outOfStock :=
       Z.of_nat (length (List.filter (fun p => negb (Product.inStock p)) products));
     Stats.byCategory := byCategory;
     Stats.averagePrice := averagePrice;
     Stats.totalValue := totalValue |}.

(** Sums over the entries of [byCategory]. *)
Definition sum_counts (m : gmap string Stats.entry) : Z :=
  map_fold (fun _ e acc => acc + Stats.count e) 0 m.

Definition sum_values (m : gmap string Stats.entry) : Q :=
  map_fold (fun _ e acc => (acc + Stats.value e)%Q) 0%Q m.

(** ** Route handlers *)

(** The body fields as the create and update handlers use them:
    [name.trim()], [description.trim()] and [category.trim()] throw unless
    the field is a string.  Both routes run [validateProduct] first, so the
    handlers only ever see a number in [price] and a boolean or nothing in
    [inStock]; anything else is answered like the thrown errors here. *)
Record fields : Type := mkFields {
  f_name : string;
  f_description : string;
  f_price : Q;
  f_category : string;
  f_inStock : option bool
}.

Definition destructure (b : gmap string value) : option fields :=
  match get b "name", get b "description", get b "price", get b "category" with
  | VStr n, VStr d, VNum pr, VStr c =>
      match get b "inStock" with
      | VUndefined => Some (mkFields n d pr c None)
      | VBool i => Some (mkFields n d pr c (Some i))
      | _ => None
      end
  | _, _, _, _ => None
  end.

Definition getProduct (id : string) (w : world) : outcome * world :=
  match findProductById (products w) id with
  | None => (NextErr (NotFoundError ("Product with ID " ++ id ++ " not found")), w)
  | Some product => (respond 200 (Single product), w)
  end.

Definition createProduct (req : request) (w : world) : outcome * world :=
  match destructure (body req) with
  | None => (NextErr (TypeError "Cannot read properties of undefined"), w)
  | Some f =>
      let inStock := default true (f_inStock f) in
      let newProduct :=
        {| Product.id := uuid req;
           Product.name := JsString.trim (f_name f);
           Product.description := JsString.trim (f_description f);
           Product.price := f_price f;
           Product.category := JsString.toLowerCase (JsString.trim (f_category f));
           Product.inStock := inStock |} in
      (respond 201 (Changed "Product created successfully" newProduct),
       {| products := push (products w) newProduct; console := console w |})
  end.

Definition updateProduct (id : string) (req : request) (w : world) : outcome * world :=
  match findIndex (fun p => String.eqb (Product.id p) id) (products w) with
  | None => (NextErr (NotFoundError ("Product with ID " ++ id ++ " not found")), w)
  | Some productIndex =>
      match products w !! productIndex, destructure (body req) with
      | Some old, Some f =>
          let updated :=
            {| Product.id := Product.id old;
               Product.name := JsString.trim (f_name f);
               Product.description := JsString.trim (f_description f);
               Product.price := f_price f;
               Product.category := JsString.toLowerCase (JsString.trim (f_category f));
               Product.inStock :=
                 match f_inStock f with
                 | Some i => i
                 | None => Product.inStock old
                 end |} in
          (respond 200 (Changed "Product updated successfully" updated),
           {| products := <[productIndex := updated]> (products w);
              console := console w |})
      | _, _ => (NextErr (TypeError "Cannot read properties of undefined"), w)
      end
  end.

Definition deleteProduct (id : string) (w : world) : outcome * world :=
  match findIndex (fun p => String.eqb (Product.id p) id) (products w) with
  | None => (NextErr (NotFoundError ("Product with ID " ++ id ++ " not found")), w)
  | Some productIndex =>
      match products w !! productIndex with
      | Some deletedProduct =>
          (respond 200 (Changed "Product deleted successfully" deletedProduct),
           {| products := splice1 productIndex (products w); console := console w |})
      | None => (NextErr (TypeError "Cannot read properties of undefined"), w)
      end
  end.

(** ** The application: middleware chain and route table *)

Inductive stage : Type :=
| Logger
| Authenticator
| Validator
| Handler
| NotFoundHandler.

#[global] Instance stage_eq_dec : EqDecision stage.
Proof. solve_decision. Defined.

#[global] Instance method_eq_dec : EqDecision method.
Proof. solve_decision. Defined.

(** A callback registered with [app.use] or on a route, tagged with the
    stage it implements. *)
Definition layer : Type := stage * (request -> world -> outcome * world).

(** A middleware that leaves the state alone. *)
Definition pure_layer (s : stage) (f : request -> outcome) : layer :=
  (s, fun req w => (f req, w)).

(** The global error handler: [err.statusCode || 500] and
    [err.message || 'Internal server error'] (the [stack] field added in
    development mode is left out). *)
Definition errorHandler (err : error) : response :=
  {| status := default 500 (statusCode err);
     success := false;
     content :=
       Failure (if JsString.truthy (message err) then message err
                else "Internal server error") |}.

Record result : Type := mkResult {
  res : response;
  final : world;
  trace : list stage
}.

(** Express runs the matching layers in registration order.  [next()]
    moves on to the following layer, [next(err)] skips to the error
    handler, a sent response ends the request.  [ran] collects the stages
    entered so far.  With no layer left Express answers 404 itself; the
    catch-all at the end of [chain] keeps a request from getting there. *)
Fixpoint run (chain : list layer) (req : request) (w : world) (ran : list stage) : result :=
  match chain with
  | [] =>
      {| res := {| status := 404; success := false;
                   content := Failure ("Cannot " ++ method_name (req_method req)
                                       ++ " " ++ url req) |};
         final := w; trace := ran |}
  | (s, f) :: rest =>
      let '(o, w') := f req w in
      match o with
      | Next => run rest req w' (push ran s)
      | NextErr e => {| res := errorHandler e; final := w'; trace := push ran s |}
      | Send r => {| res := r; final := w'; trace := push ran s |}
      end
  end.

(** [/api/products/:id] *)
Definition product_id (p : list string) : option string :=
  match p with
  | [a; b; id] => if bool_decide (a = "api" ∧ b = "products") then Some id else None
  | _ => None
  end.

Section App.

Variable API_KEY : option string.

(** The route table, in registration order.  The health route also
    reports [process.uptime()], which the payload leaves out. *)
Definition route_stack (req : request) : list layer :=
  let p := path req in
  match req_method req with
  | GET =>
      if bool_decide (p = []) then
        [(Handler, fun _ w => (respond 200 Welcome, w))]
      else if bool_decide (p = ["api"; "health"]) then
        [(Handler, fun r w => (respond 200 (Health (now r)), w))]
      else if bool_decide (p = ["api"; "products"]) then
        [(Handler, fun r w =>
            let '(data, pagination) := getProducts (products w) (query r) in
            (respond 200 (Listing data pagination), w))]
      else if bool_decide (p = ["api"; "products"; "stats"]) then
        [(Handler, fun _ w => (respond 200 (Statistics (getStats (products w))), w))]
      else
        match product_id p with
        | Some id => [(Handler, fun _ w => getProduct id w)]
        | None => []
        end
  | POST =>
      if bool_decide (p = ["api"; "products"]) then
        [ pure_layer Authenticator (authenticate API_KEY);
          pure_layer Validator validateProduct;
          (Handler, createProduct) ]
      else []
  | PUT =>
      match product_id p with
      | Some id =>
          [ pure_layer Authenticator (authenticate API_KEY);
            pure_layer Validator validateProduct;
            (Handler, updateProduct id) ]
      | None => []
      end
  | DELETE =>
      match product_id p with
      | Some id =>
          [ pure_layer Authenticator (authenticate API_KEY);
            (Handler, fun _ w => deleteProduct id w) ]
      | None => []
      end
  end.

(** The layers a request goes through: [app.use(requestLogger)], the
    matching route, and the catch-all registered after the routes. *)
Definition chain (req : request) : list layer :=
  [(Logger, requestLogger)] ++ route_stack req
  ++ [pure_layer NotFoundHandler (fun _ => NextErr (NotFoundError "Route not found"))].

Definition app (req : request) (w : world) : result :=
  run (chain req) req w [].

End App.

(** ** Vocabulary of the properties *)






(** The optional [inStock] field of a body that passed validation. *)
Definition inStock_field (b : gmap string value) : option bool :=
  match get b "inStock" with
  | VBool i => Some i
  | _ => None
  end.


Inductive kind : Type := Create | Update | Delete | Read | Unmatched.

(** The kind of route a request is for: create is POST /api/products,
    update is PUT /api/products/:id, delete is DELETE /api/products/:id,
    the GET routes only read. *)
Definition classify (req : request) : kind :=
  match req_method req with
  | GET =>
      if bool_decide (path req = [] \/ path req = ["api"; "health"]
                      \/ path req = ["api"; "products"])
      then Read
      else match product_id (path req) with Some _ => Read | None => Unmatched end
  | POST => if bool_decide (path req = ["api"; "products"]) then Create else Unmatched
  | PUT => match product_id (path req) with Some _ => Update | None => Unmatched end
  | DELETE => match product_id (path req) with Some _ => Delete | None => Unmatched end
  end.

Definition is_next (o : outcome) : bool :=
  match o with Next => true | _ => false end.

(** The stages a request enters: each one only after all stages in front
    of it called [next()]. *)
Definition expected_trace (API_KEY : option string) (req : request) : list stage :=
  match classify req with
  | Create | Update =>
      if negb (is_next (authenticate API_KEY req)) then [Logger; Authenticator]
      else if negb (is_next (validateProduct req)) then [Logger; Authenticator; Validator]
      else [Logger; Authenticator; Validator; Handler]
  | Delete =>
      if negb (is_next (authenticate API_KEY req)) then [Logger; Authenticator]
      else [Logger; Authenticator; Handler]
  | Read => [Logger; Handler]
  | Unmatched => [Logger; NotFoundHandler]
  end.

Definition stage_order : list stage :=
  [Logger; Authenticator; Validator; Handler; NotFoundHandler].

Definition log_line (req : request) : string :=
  "[" ++ now req ++ "] " ++ method_name (req_method req) ++ " " ++ url req.

Definition logged (req : request) (w : world) : world :=
  {| products := products w; console := push (console w) (log_line req) |}.

(** [req] sent to another route. *)
Definition on_route (m : method) (p : list string) (req : request) : request :=
  {| req_method := m; url := url req; path := p; x_api_key := x_api_key req;
     body := body req; query := query req; now := now req; uuid := uuid req |}.

(** [String(n)] for an integer [n >= 1]: how a client writes a page number. *)
Definition digit_char (d : Z) : ascii := ascii_of_N (Z.to_N (48 + d)).

Fixpoint render (fuel : nat) (n : Z) (acc : string) : string :=
  match fuel with
  | O => acc
  | S fuel' =>
      let acc' := String (digit_char (n mod 10)) acc in
      if n <? 10 then acc' else render fuel' (n / 10) acc'
  end.

Definition decimal (n : Z) : string := render (Z.to_nat n) n "".



(** ** Sample requests and states *)

Definition sample_world : world := {| products := sample_products; console := [] |}.

Definition mk_body (l : list (string * value)) : gmap string value := list_to_map l.

Definition put_price_only : request :=
  {| req_method := PUT; url := "/api/products/1"; path := ["api"; "products"; "1"];
     x_api_key := Some "secret"; body := mk_body [("price", VNum (120 # 1))];
     query := ∅; now := "2025-10-04T10:30:00.000Z"; uuid := "u-1" |}.

Definition post_request (k : option string) (b : gmap string value) : request :=
  {| req_method := POST; url := "/api/products"; path := ["api"; "products"];
     x_api_key := k; body := b; query := ∅;
     now := "2025-10-04T10:30:00.000Z"; uuid := "a1b2c3d4" |}.

Definition keyed_request (k : option string) : request := post_request k ∅.

Definition list_request (l : list (string * string)) : request :=
  {| req_method := GET; url := "/api/products"; path := ["api"; "products"];
     x_api_key := None; body := ∅; query := query_of l;
     now := "2025-10-04T10:30:00.000Z"; uuid := "a1b2c3d4" |}.


Definition constructor_body : gmap string value :=
  mk_body [ ("name", VStr "Lego set"); ("description", VStr "Bricks");
            ("price", VNum (5 # 1)); ("category", VStr "constructor") ].

Definition valid_body : gmap string value :=
  mk_body [ ("name", VStr " Wireless Mouse "); ("description", VStr "Ergonomic wireless mouse");
            ("price", VNum (2999 # 100)); ("category", VStr "Electronics") ].

Definition stored_100 : world :=
  {| products := [Product.mk "1" "Laptop" "High-performance laptop with 16GB RAM"
                    (100 # 1) "electronics" true];
     console := [] |}.

Definition put_valid : request :=
  {| req_method := PUT; url := "/api/products/1"; path := ["api"; "products"; "1"];
     x_api_key := Some "secret"; body := <["id" := VStr "999"]> valid_body;
     query := ∅; now := "2025-10-04T10:30:00.000Z"; uuid := "u-2" |}.

(** ** Proof automation *)

(** Picks the entry of the route table for a request whose method and path
    are known. *)
Ltac route_simpl :=
  unfold route_stack, product_id; cbn [req_method path];
  repeat first [ rewrite bool_decide_eq_true_2 by (repeat split; reflexivity)
               | rewrite bool_decide_eq_false_2 by (intuition discriminate) ].

Ltac finish_summary :=
  repeat split; try reflexivity; try tauto; try congruence;
  try (intros; intuition discriminate).

(** ** Vocabulary of the properties of the routes *)

(** The response a stage's outcome leads to.  A handler that called
    [next()] would hand the request to the catch-all. *)
Definition reply (o : outcome) : response :=
  match o with
  | Send r => r
  | NextErr e => errorHandler e
  | Next => errorHandler (NotFoundError "Route not found")
  end.

(** [p.id === id] *)
Definition has_id (id : string) (p : product) : bool := String.eqb (Product.id p) id.

(** The record the create and update handlers build from the body
    fields. *)
Definition normalized (id : string) (f : fields) (inStock : bool) : product :=
  {| Product.id := id;
     Product.name := JsString.trim (f_name f);
     Product.description := JsString.trim (f_description f);
     Product.price := f_price f;
     Product.category := JsString.toLowerCase (JsString.trim (f_category f));
     Product.inStock := inStock |}.

(** [req] with another body. *)
Definition with_body (b : gmap string value) (req : request) : request :=
  {| req_method := req_method req; url := url req; path := path req;
     x_api_key := x_api_key req; body := b; query := query req;
     now := now req; uuid := uuid req |}.

Definition ids (l : list product) : list string := map Product.id l.

(** A failure response with the given status. *)
Definition failure_with (st : Z) (r : response) : Prop :=
  exists msg, r = {| status := st; success := false; content := Failure msg |}.

(** A success response with the given status. *)
Definition success_with (st : Z) (r : response) : Prop :=
  exists p, r = {| status := st; success := true; content := p |}.

(** What every record the create and update handlers store looks like:
    a name, a description and a category without surrounding white space,
    a name and a category that are not empty, a category in lower case and
    a price that is not negative. *)
Definition well_formed (p : product) : Prop :=
  Product.name p <> "" /\ JsString.trim (Product.name p) = Product.name p
  /\ JsString.trim (Product.description p) = Product.description p
  /\ (0 <= Product.price p)%Q
  /\ Product.category p <> "" /\ JsString.trim (Product.category p) = Product.category p
  /\ JsString.toLowerCase (Product.category p) = Product.category p.

Definition get_request (id : string) : request :=
  {| req_method := GET; url := "/api/products/" ++ id; path := ["api"; "products"; id];
     x_api_key := None; body := ∅; query := ∅;
     now := "2025-10-04T10:31:00.000Z"; uuid := "u-3" |}.

Definition delete_request (k : option string) (id : string) : request :=
  {| req_method := DELETE; url := "/api/products/" ++ id; path := ["api"; "products"; id];
     x_api_key := k; body := ∅; query := ∅;
     now := "2025-10-04T10:32:00.000Z"; uuid := "u-4" |}.

Definition put_request (k : option string) (id : string) (b : gmap string value) : request :=
  {| req_method := PUT; url := "/api/products/" ++ id; path := ["api"; "products"; id];
     x_api_key := k; body := b; query := ∅;
     now := "2025-10-04T10:33:00.000Z"; uuid := "u-5" |}.

(** A record passes the filters a query asks for: each of the search,
    category, minimum and maximum price tests that has a non-empty
    parameter, and the stock test when its parameter is present. *)
Definition passes (q : gmap string string) (p : product) : Prop :=
  (forall s, q !! "search" = Some s -> s <> "" -> matches_search s p = true)
  /\ (forall s, q !! "category" = Some s -> s <> "" -> matches_category s p = true)
  /\ (forall s, q !! "inStock" = Some s -> Product.inStock p = String.eqb s "true")
  /\ (forall s, q !! "minPrice" = Some s -> s <> "" -> matches_minPrice s p = true)
  /\ (forall s, q !! "maxPrice" = Some s -> s <> "" -> matches_maxPrice s p = true).

(** The fields a product object has. *)
Definition known_field (f : string) : Prop :=
  f = "id" \/ f = "name" \/ f = "description" \/ f = "price" \/ f = "category"
  \/ f = "inStock".

(** Every element stands in relation [R] to all elements behind it. *)
Fixpoint ordered {A : Type} (R : A -> A -> Prop) (l : list A) : Prop :=
  match l with
  | [] => True
  | x :: l' => Forall (R x) l' /\ ordered R l'
  end.

(** [a] does not come after [b] in the order a listing is asked for:
    ascending unless [order] is "desc". *)
Definition in_order (q : gmap string string) (f : string) (a b : product) : Prop :=
  if bool_decide (q !! "order" = Some "desc")
  then field_lt f a b = false
  else field_lt f b a = false.

(** The parameters the listing route reads. *)
Definition listing_params : list string :=
  ["search"; "category"; "inStock"; "minPrice"; "maxPrice"; "sortBy"; "order"; "page";
   "limit"].

(** What [if (param)] sees of a parameter: nothing when it is absent or
    empty. *)
Definition if_truthy (param : option string) : option string :=
  match param with
  | Some s => if JsString.truthy s then Some s else None
  | None => None
  end.

(** [p.category === c] *)
Definition in_category (c : string) (p : product) : bool :=
  String.eqb (Product.category p) c.

(** The sum of the prices of a list of records, as [reduce] adds them. *)
Definition sum_prices (l : list product) : Q :=
  fold_left (fun sum p => (sum + Product.price p)%Q) l 0%Q.

(** The body fields the validator and the handlers read. *)
Definition body_fields : list string :=
  ["name"; "description"; "price"; "category"; "inStock"].

Definition stats_request : request :=
  {| req_method := GET; url := "/api/products/stats"; path := ["api"; "products"; "stats"];
     x_api_key := None; body := ∅; query := ∅;
     now := "2025-10-04T10:34:00.000Z"; uuid := "u-6" |}.

Definition sample_fields : fields :=
  mkFields "Wireless Mouse" "Ergonomic wireless mouse" (2999 # 100) "electronics" None.

(** ** Proof automation for the properties of the routes *)

(** Lookups in a map after insertions and deletions at other keys. *)
Ltac lookup_simpl :=
  repeat first [ rewrite lookup_insert_eq | rewrite lookup_delete_eq
               | rewrite lookup_insert_ne by congruence
               | rewrite lookup_delete_ne by congruence ].

(** [k] is none of the body fields, given [H : ~ In k body_fields]. *)
Ltac other_field H :=
  let E := fresh in intros E; apply H; rewrite E; cbn; tauto.

(** * Properties *)

(** ** The embedding on concrete inputs *)

Example trim_ex : JsString.trim "  Desk Chair  " = "Desk Chair".
Proof. reflexivity. Qed.

Example includes_ex :
  JsString.includes (JsString.toLowerCase "Laptop") (JsString.toLowerCase "LAPTOP") = true.
Proof. reflexivity. Qed.

Example parseInt_ex1 : JsNumber.parseInt " 42abc" = Some 42.
Proof. reflexivity. Qed.
Example parseInt_ex2 : JsNumber.parseInt "0x1f" = Some 31.
Proof. reflexivity. Qed.
Example parseInt_ex3 : JsNumber.parseInt "abc" = None.
Proof. reflexivity. Qed.
Example parseInt_ex4 : JsNumber.parseInt "-3" = Some (-3).
Proof. reflexivity. Qed.
Example parseFloat_ex1 : JsNumber.parseFloat "abc" = JsNumber.NaN.
Proof. reflexivity. Qed.
Example parseFloat_ex2 :
  match JsNumber.parseFloat "-12.5e1xyz" with
  | JsNumber.Fin q => Qeq_bool q (-125 # 1)
  | _ => false
  end = true.
Proof. vm_compute. reflexivity. Qed.
Example parseFloat_ex3 : JsNumber.parseFloat ".e3" = JsNumber.NaN.
Proof. reflexivity. Qed.

Example slice_ex1 : slice [1;2;3;4;5] 1 3 = [2;3].
Proof. reflexivity. Qed.
Example slice_ex2 : slice [1;2;3;4;5] (-4) (-2) = [2;3].
Proof. reflexivity. Qed.
Example slice_ex3 : slice [1;2;3;4;5] 10 20 = [].
Proof. reflexivity. Qed.

Example getProducts_ex :
  getProducts sample_products
    (query_of [("minPrice", "100"); ("sortBy", "price"); ("order", "desc");
               ("page", "1"); ("limit", "2")])
  = ([ Product.mk "1" "Laptop" "High-performance laptop with 16GB RAM"
         (1200 # 1) "electronics" true;
       Product.mk "2" "Smartphone" "Latest model with 128GB storage"
         (800 # 1) "electronics" true ],
     Page.mk 1 2 4 2 true false).
Proof. vm_compute. reflexivity. Qed.

Example getProducts_price_desc_ex :
  let item (price : Q) (category : string) :=
    Product.mk "" "" "" price category true in
  getProducts [item (50 # 1) "a"; item (150 # 1) "b"; item (300 # 1) "a"]
    (query_of [("minPrice", "100"); ("sortBy", "price"); ("order", "desc");
               ("page", "1"); ("limit", "10")])
  = ([item (300 # 1) "a"; item (150 # 1) "b"], Page.mk 1 1 2 10 false false).
Proof. vm_compute. reflexivity. Qed.

Example search_is_case_insensitive_ex :
  map Product.id (fst (getProducts sample_products (query_of [("search", "LAPTOP")])))
  = ["1"].
Proof. vm_compute. reflexivity. Qed.

Example sort_is_stable_ex :
  map Product.id
    (fst (getProducts sample_products (query_of [("sortBy", "category")])))
  = ["1"; "2"; "5"; "4"; "3"].
Proof. vm_compute. reflexivity. Qed.

Example put_price_only_ex :
  let r := app (Some "secret") put_price_only sample_world in
  status (res r) = 400 /\ trace r = [Logger; Authenticator; Validator]
  /\ products (final r) = sample_products.
Proof. vm_compute. auto. Qed.

(** ** Authenticator *)

Lemma truthy_nonempty (k : string) : k <> "" -> JsString.truthy k = true.
Proof. destruct k; [congruence | reflexivity]. Qed.

(** C7, as stated, fails on a header that is present but empty: it differs
    from the configured secret, yet the answer is "API key is required",
    not "Invalid API key". *)
Lemma authenticate_empty_header :
  let req := keyed_request (Some "") in
  x_api_key req = Some ""
  /\ Some "" <> Some "secret"
  /\ authenticate (Some "secret") req
     = NextErr (AuthenticationError "API key is required")
  /\ authenticate (Some "secret") req
     <> NextErr (AuthenticationError "Invalid API key").
Proof. repeat split; [discriminate | vm_compute; discriminate]. Qed.

(** C7 (amended): an absent or empty credential header fails with status
    401 and the message "API key is required"; a non-empty header that
    differs from the configured secret fails with status 401 and "Invalid
    API key"; a non-empty header equal to the secret calls [next()] and
    leaves the state as it was. *)
Theorem authenticate_spec (API_KEY : option string) (req : request) (w : world) :
  statusCode (AuthenticationError "API key is required") = Some 401
  /\ statusCode (AuthenticationError "Invalid API key") = Some 401
  /\ (x_api_key req = None \/ x_api_key req = Some "" ->
      authenticate API_KEY req = NextErr (AuthenticationError "API key is required"))
  /\ (forall k, x_api_key req = Some k -> k <> "" -> Some k <> API_KEY ->
      authenticate API_KEY req = NextErr (AuthenticationError "Invalid API key"))
  /\ (forall k, x_api_key req = Some k -> k <> "" -> Some k = API_KEY ->
      snd (pure_layer Authenticator (authenticate API_KEY)) req w = (Next, w)).
Proof.
  unfold authenticate, pure_layer; simpl.
  split; [reflexivity | split; [reflexivity | ]].
  split; [ | split].
  - intros [-> | ->]; reflexivity.
  - intros k -> Hne Hdiff.
    rewrite (truthy_nonempty k Hne); simpl.
    rewrite bool_decide_eq_false_2 by assumption. reflexivity.
  - intros k -> Hne Heq.
    rewrite (truthy_nonempty k Hne); simpl.
    rewrite bool_decide_eq_true_2 by assumption. reflexivity.
Qed.

Lemma authenticate_spec_witness :
  authenticate (Some "secret") (keyed_request None)
    = NextErr (AuthenticationError "API key is required")
  /\ authenticate (Some "secret") (keyed_request (Some "guess"))
    = NextErr (AuthenticationError "Invalid API key")
  /\ snd (pure_layer Authenticator (authenticate (Some "secret")))
       (keyed_request (Some "secret")) sample_world = (Next, sample_world).
Proof.
  split; [ | split].
  - apply (authenticate_spec (Some "secret") (keyed_request None) sample_world).
    left; reflexivity.
  - apply (authenticate_spec (Some "secret") (keyed_request (Some "guess")) sample_world
             ) with (k := "guess"); [reflexivity | discriminate | discriminate].
  - apply (authenticate_spec (Some "secret") (keyed_request (Some "secret")) sample_world
             ) with (k := "secret"); [reflexivity | discriminate | reflexivity].
Defined.

(** ** Validator *)


(** What each test accepts. *)
Lemma name_invalid_false (v : value) :
  name_invalid v = false <-> exists s, v = VStr s /\ JsString.trim s <> "".
Proof.
  unfold name_invalid. split.
  - destruct v as [ | | b | q | s | ]; simpl; try (destruct b); try discriminate;
      try (destruct (negb (Qeq_bool q 0)); discriminate).
    intros H. exists s. split; [reflexivity | ].
    destruct (JsString.truthy s); [ | discriminate]. simpl in H.
    destruct (JsString.trim s); [discriminate | discriminate].
  - intros (s & -> & Hs). simpl.
    assert (Ht : JsString.truthy s = true).
    { destruct s; [ | reflexivity]. exfalso; apply Hs; reflexivity. }
    rewrite Ht. simpl. destruct (JsString.trim s); [congruence | reflexivity].
Qed.

Lemma description_invalid_false (v : value) :
  description_invalid v = false <-> exists s, v = VStr s /\ s <> "".
Proof.
  unfold description_invalid. split.
  - destruct v as [ | | b | q | s | ]; simpl; try (destruct b); try discriminate;
      try (destruct (negb (Qeq_bool q 0)); discriminate).
    intros H. exists s. split; [reflexivity | ]. destruct s; [discriminate | discriminate].
  - intros (s & -> & Hs). simpl. destruct s; [congruence | reflexivity].
Qed.

Lemma price_invalid_false (v : value) :
  price_invalid v = false <-> exists q, v = VNum q /\ (0 <= q)%Q.
Proof.
  unfold price_invalid. split.
  - destruct v as [ | | b | q | s | ]; simpl; try discriminate.
    intros H. exists q. split; [reflexivity | ].
    apply Qle_bool_iff. destruct (Qle_bool 0 q); [reflexivity | discriminate].
  - intros (q & -> & Hq). simpl. apply Qle_bool_iff in Hq. rewrite Hq. reflexivity.
Qed.

Lemma inStock_invalid_false (v : value) :
  inStock_invalid v = false <-> v = VUndefined \/ exists b, v = VBool b.
Proof.
  unfold inStock_invalid. split.
  - destruct v as [ | | b | q | s | ]; simpl; try discriminate; eauto.
  - intros [-> | (b & ->)]; reflexivity.
Qed.


(** ** Statistics *)

Lemma sum_counts_insert (m : gmap string Stats.entry) (c : string) (e : Stats.entry) :
  sum_counts (<[c := e]> m)
  = sum_counts m - match m !! c with Some o => Stats.count o | None => 0 end
    + Stats.count e.
Proof.
  unfold sum_counts. destruct (m !! c) as [o | ] eqn:Hc.
  - rewrite <- insert_delete_eq.
    rewrite map_fold_insert_L; [ | intros; lia | apply lookup_delete_eq].
    rewrite (map_fold_delete_L _ _ c o m); [lia | intros; lia | exact Hc].
  - rewrite map_fold_insert_L; [lia | intros; lia | exact Hc].
Qed.

Lemma sum_values_insert (m : gmap string Stats.entry) (c : string) (e : Stats.entry) :
  (sum_values (<[c := e]> m)
   == sum_values m - match m !! c with Some o => Stats.value o | None => 0 end
      + Stats.value e)%Q.
Proof.
  unfold sum_values. destruct (m !! c) as [o | ] eqn:Hc.
  - rewrite <- insert_delete_eq.
    rewrite (map_fold_insert Qeq);
      [ | intros j z x y Hxy; rewrite Hxy; reflexivity
        | intros; ring | apply lookup_delete_eq].
    rewrite (map_fold_delete Qeq _ _ c o m);
      [ring | intros j z x y Hxy; rewrite Hxy; reflexivity | intros; ring | exact Hc].
  - rewrite (map_fold_insert Qeq);
      [ring | intros j z x y Hxy; rewrite Hxy; reflexivity | intros; ring | exact Hc].
Qed.

(** A product whose category is not an inherited name is counted once in
    its category. *)
Lemma count_product_own (m : gmap string Stats.entry) (p : product) :
  inherited (Product.category p) = false ->
  sum_counts (count_product m p) = sum_counts m + 1
  /\ (sum_values (count_product m p) == sum_values m + Product.price p)%Q.
Proof.
  intros Hown. unfold count_product, lookup_is_falsy. rewrite Hown. simpl.
  destruct (m !! Product.category p) as [o | ] eqn:Hc.
  - rewrite Hc. rewrite sum_counts_insert, sum_values_insert, Hc. simpl.
    split; [lia | ring].
  - rewrite lookup_insert_eq, insert_insert_eq.
    rewrite sum_counts_insert, sum_values_insert, Hc. simpl.
    split; [lia | ring].
Qed.

Lemma fold_count_product (l : list product) (m : gmap string Stats.entry) :
  Forall (fun p => inherited (Product.category p) = false) l ->
  sum_counts (fold_left count_product l m) = sum_counts m + Z.of_nat (length l)
  /\ (sum_values (fold_left count_product l m)
      == sum_values m + fold_left (fun sum p => sum + Product.price p) l 0)%Q.
Proof.
  intros Hl. revert m. induction Hl as [ | p l Hp Hl IH]; intros m.
  - simpl. split; [lia | ring].
  - cbn [fold_left length]. destruct (IH (count_product m p)) as [IHc IHv].
    destruct (count_product_own m p Hp) as [Hc Hv].
    split.
    + rewrite IHc, Hc. lia.
    + rewrite IHv, Hv.
      assert (Hshift : forall (k : list product) (a : Q),
                 (fold_left (fun sum p => sum + Product.price p) k a
                  == a + fold_left (fun sum p => sum + Product.price p) k 0)%Q).
      { clear. induction k as [ | x k IHk]; intros a; simpl; [ring | ].
        rewrite (IHk (a + Product.price x)%Q), (IHk (0 + Product.price x)%Q). ring. }
      rewrite (Hshift l (0 + Product.price p)%Q). ring.
Qed.

Lemma filter_split_length {A : Type} (f : A -> bool) (l : list A) :
  (length (List.filter f l) + length (List.filter (fun x => negb (f x)) l))%nat = length l.
Proof.
  induction l as [ | x l IH]; simpl; [reflexivity | ].
  destruct (f x); simpl; lia.
Qed.

(** The summary is consistent on every collection whose categories are
    not names inherited from [Object.prototype]. *)
Lemma getStats_consistent (l : list product) :
  Forall (fun p => inherited (Product.category p) = false) l ->
  let s := getStats l in
  Stats.inStock s + Stats.outOfStock s = Stats.totalProducts s
  /\ sum_counts (Stats.byCategory s) = Stats.totalProducts s
  /\ (sum_values (Stats.byCategory s) == Stats.totalValue s)%Q
  /\ (0 < Stats.totalProducts s ->
      (Stats.averagePrice s == Stats.totalValue s / inject_Z (Stats.totalProducts s))%Q).
Proof.
  intros Hl s. unfold s, getStats; cbn [Stats.inStock Stats.outOfStock Stats.totalProducts
    Stats.byCategory Stats.totalValue Stats.averagePrice].
  destruct (fold_count_product l ∅ Hl) as [Hc Hv].
  split; [ | split; [ | split]].
  - pose proof (filter_split_length (fun p => Product.inStock p) l). lia.
  - rewrite Hc. unfold sum_counts. rewrite map_fold_empty. lia.
  - rewrite Hv. unfold sum_values. rewrite map_fold_empty. ring.
  - intros Hpos. apply Z.ltb_lt in Hpos. rewrite Hpos. reflexivity.
Qed.

(** C9: on the empty collection the summary has total count 0, average
    price 0, total value 0 and no category; the statistics route answers
    200 with that summary. *)
Theorem getStats_empty (API_KEY : option string) (req : request) (log : list string) :
  Stats.totalProducts (getStats []) = 0
  /\ Stats.averagePrice (getStats []) = 0%Q
  /\ Stats.totalValue (getStats []) = 0%Q
  /\ Stats.byCategory (getStats []) = ∅
  /\ Stats.inStock (getStats []) = 0
  /\ Stats.outOfStock (getStats []) = 0
  /\ res (app API_KEY
            {| req_method := GET; url := url req; path := ["api"; "products"; "stats"];
               x_api_key := x_api_key req; body := body req; query := query req;
               now := now req; uuid := uuid req |}
            {| products := []; console := log |})
     = {| status := 200; success := true;
          content := Statistics (Stats.mk 0 0 0 ∅ 0%Q 0%Q) |}.
Proof. repeat split. Qed.

(** C10 fails once a product of category "constructor" is stored: creating
    it passes authentication and validation, and the summary computed
    afterwards counts 6 products in total while the per-category counts
    add up to 5 and the per-category values to 2450 instead of 2455; the
    category has no entry in [byCategory]. *)
Theorem getStats_inherited_category_lost :
  let created := app (Some "secret") (post_request (Some "secret") constructor_body)
                   sample_world in
  let s := getStats (products (final created)) in
  status (res created) = 201
  /\ Stats.totalProducts s = 6
  /\ sum_counts (Stats.byCategory s) = 5
  /\ Stats.byCategory s !! "constructor" = None
  /\ Qred (Stats.totalValue s) = 2455 # 1
  /\ Qred (sum_values (Stats.byCategory s)) = 2450 # 1
  /\ Stats.inStock s + Stats.outOfStock s = Stats.totalProducts s.
Proof. vm_compute. repeat split. Qed.

(** ** Query engine: pagination arithmetic *)

Lemma ceil_div_Z (a b : Z) : b <> 0 -> ceil_div a b = - ((- a) / b).
Proof.
  intros Hb. unfold ceil_div, Qceiling, Qfloor, Qdiv, Qinv, Qmult, Qopp, inject_Z.
  destruct b as [ | p | p]; [congruence | | ]; simpl.
  - rewrite Z.mul_1_r. reflexivity.
  - f_equal. replace (- (a * -1)) with a by lia.
    change (Z.neg p) with (- Z.pos p). rewrite Z.div_opp_opp by lia. reflexivity.
Qed.

Lemma ceil_div_zero (b : Z) : b <> 0 -> ceil_div 0 b = 0.
Proof. intros Hb. rewrite ceil_div_Z by assumption. simpl. rewrite Z.div_0_l; lia. Qed.

(** For a positive page size, [totalPages] is the least number of pages
    that hold [a] records. *)
Lemma ceil_div_pos_bounds (a b : Z) :
  0 < b -> (ceil_div a b - 1) * b < a <= ceil_div a b * b.
Proof.
  intros Hb. rewrite ceil_div_Z by lia.
  pose proof (Z.div_mod (- a) b ltac:(lia)) as Hdm.
  pose proof (Z.mod_pos_bound (- a) b Hb) as Hm.
  nia.
Qed.


Lemma or_default_nonzero (n : option Z) (d : Z) : d <> 0 -> JsNumber.or_default n d <> 0.
Proof. intros Hd. destruct n as [[ | p | p] | ]; simpl; lia. Qed.

Lemma limit_of_nonzero (q : gmap string string) : limit_of q <> 0.
Proof. apply or_default_nonzero. lia. Qed.

Lemma slice_nil {A : Type} (s e : Z) : slice (@nil A) s e = [].
Proof. unfold slice. rewrite drop_nil, take_nil. reflexivity. Qed.

(** With a page and a page size of at least 1, [paginate] selects the
    half-open range of indices from [(page-1)*limit] to [page*limit],
    clamped to the array. *)
Lemma paginate_take_drop {A : Type} (l : list A) (page limit : Z) :
  1 <= page -> 1 <= limit ->
  paginate l page limit
  = take (Z.to_nat limit) (drop (Z.to_nat ((page - 1) * limit)) l).
Proof.
  intros Hp Hl. unfold paginate, slice.
  set (len := Z.of_nat (length l)).
  assert (Hs : 0 <= (page - 1) * limit) by nia.
  assert (He : page * limit = (page - 1) * limit + limit) by lia.
  rewrite He. set (s := (page - 1) * limit) in *.
  destruct (s <? 0) eqn:Hs0; [apply Z.ltb_lt in Hs0; lia | ].
  destruct (s + limit <? 0) eqn:He0; [apply Z.ltb_lt in He0; lia | ].
  destruct (Z_lt_le_dec s len) as [Hin | Hout].
  - replace (Z.min s len) with s by lia.
    destruct (Z_le_gt_dec (s + limit) len) as [Hfull | Hpart].
    + f_equal. lia.
    + rewrite !take_ge; [reflexivity | | ]; rewrite length_drop; unfold len in *; lia.
  - rewrite (drop_ge l (Z.to_nat s)) by (unfold len in *; lia).
    rewrite take_nil.
    replace (Z.to_nat (Z.max (Z.min (s + limit) len - Z.min s len) 0)) with O by lia.
    reflexivity.
Qed.





(** Sorting only reorders. *)
Lemma insert_sorted_perm {A : Type} (cmp : A -> A -> Z) (x : A) (l : list A) :
  Permutation (insert_sorted cmp x l) (x :: l).
Proof.
  induction l as [ | y l IH]; simpl; [reflexivity | ].
  destruct (0 <? cmp x y); [ | reflexivity].
  rewrite IH. apply perm_swap.
Qed.

Lemma sort_perm {A : Type} (cmp : A -> A -> Z) (l : list A) :
  Permutation (sort cmp l) l.
Proof.
  induction l as [ | x l IH]; simpl; [reflexivity | ].
  rewrite insert_sorted_perm, IH. reflexivity.
Qed.

Lemma sortProducts_perm (l : list product) (q : gmap string string) :
  Permutation (sortProducts l q) l.
Proof.
  unfold sortProducts. destruct (q !! "sortBy") as [f | ]; [ | reflexivity].
  destruct (JsString.truthy f); [apply sort_perm | reflexivity].
Qed.

(** ** Query engine: range filters *)

Lemma filter_if_truthy_nil (param : option string) (keep : string -> product -> bool) :
  filter_if_truthy param keep [] = [].
Proof. destruct param as [s | ]; simpl; [destruct (JsString.truthy s) | ]; reflexivity. Qed.

Lemma filter_none {A : Type} (f : A -> bool) (l : list A) :
  (forall x, f x = false) -> List.filter f l = [].
Proof.
  intros Hf. induction l as [ | x l IH]; simpl; [reflexivity | ].
  rewrite Hf. exact IH.
Qed.

Lemma filterProducts_NaN (l : list product) (q : gmap string string) (k s : string) :
  k = "minPrice" \/ k = "maxPrice" ->
  q !! k = Some s -> s <> "" -> JsNumber.parseFloat s = JsNumber.NaN ->
  filterProducts l q = [].
Proof.
  intros Hk Hq Hs Hnan. unfold filterProducts.
  destruct Hk as [-> | ->]; rewrite Hq.
  - match goal with
    | |- filter_if_truthy ?p ?f (filter_if_truthy (Some s) matches_minPrice ?l0) = _ =>
        replace (filter_if_truthy (Some s) matches_minPrice l0) with (@nil product)
    end.
    + apply filter_if_truthy_nil.
    + simpl. rewrite (truthy_nonempty s Hs). symmetry. apply filter_none.
      intros p. unfold matches_minPrice. rewrite Hnan. reflexivity.
  - simpl. rewrite (truthy_nonempty s Hs). apply filter_none.
    intros p. unfold matches_maxPrice. rewrite Hnan. reflexivity.
Qed.

Lemma sortProducts_nil (q : gmap string string) : sortProducts [] q = [].
Proof.
  unfold sortProducts. destruct (q !! "sortBy") as [f | ]; [ | reflexivity].
  destruct (JsString.truthy f); reflexivity.
Qed.

(** An empty-string parameter is falsy: the stage is skipped as if the
    parameter were not there. *)
Lemma filterProducts_empty_param (l : list product) (q : gmap string string) (k : string) :
  k = "minPrice" \/ k = "maxPrice" ->
  filterProducts l (<[k := ""]> q) = filterProducts l (delete k q).
Proof.
  intros [-> | ->]; unfold filterProducts;
    repeat (first [ rewrite lookup_insert_eq | rewrite lookup_delete_eq
                  | rewrite lookup_insert_ne by discriminate
                  | rewrite lookup_delete_ne by discriminate ]);
    reflexivity.
Qed.

Lemma getProducts_empty_param (l : list product) (q : gmap string string) (k : string) :
  k = "minPrice" \/ k = "maxPrice" ->
  getProducts l (<[k := ""]> q) = getProducts l (delete k q).
Proof.
  intros Hk. unfold getProducts.
  rewrite (filterProducts_empty_param l q k Hk).
  assert (Hsort : forall x, sortProducts x (<[k := ""]> q) = sortProducts x (delete k q)).
  { intros x. unfold sortProducts.
    destruct Hk as [-> | ->];
      rewrite !lookup_insert_ne, !lookup_delete_ne by discriminate; reflexivity. }
  assert (Hpage : page_of (<[k := ""]> q) = page_of (delete k q)).
  { unfold page_of.
    destruct Hk as [-> | ->];
      rewrite lookup_insert_ne, lookup_delete_ne by discriminate; reflexivity. }
  assert (Hlimit : limit_of (<[k := ""]> q) = limit_of (delete k q)).
  { unfold limit_of.
    destruct Hk as [-> | ->];
      rewrite lookup_insert_ne, lookup_delete_ne by discriminate; reflexivity. }
  rewrite Hsort, Hpage, Hlimit. reflexivity.
Qed.

(** C2, as stated, fails: with [minPrice=abc] the listing of the five
    sample products is empty and counts 0 matching records, while the same
    query without the parameter returns all five. *)
Lemma minPrice_abc_empties_listing :
  let q := query_of [("minPrice", "abc")] in
  getProducts sample_products q = ([], Page.mk 1 0 0 10 false false)
  /\ getProducts sample_products (delete "minPrice" q)
     = (sample_products, Page.mk 1 1 5 10 false false)
  /\ getProducts sample_products q <> getProducts sample_products (delete "minPrice" q).
Proof.
  split; [vm_compute; reflexivity | split; [vm_compute; reflexivity | ]].
  vm_compute. discriminate.
Qed.

(** C2 (amended): a [minPrice] or [maxPrice] parameter that is present,
    not empty, and has no numeric prefix parses to [NaN]; its range filter
    then rejects every record, so the slice is empty and the matching count
    and page count are 0; the request does not fail (status 200).  The
    empty string is the one value of the parameter that is treated as
    absent. *)
Theorem malformed_price_rejects_all (API_KEY : option string) (req : request) (w : world)
    (k s : string) :
  k = "minPrice" \/ k = "maxPrice" ->
  query req !! k = Some s -> s <> "" -> JsNumber.parseFloat s = JsNumber.NaN ->
  let q := query req in
  getProducts (products w) q
  = ([], Page.mk (page_of q) 0 0 (limit_of q) (page_of q <? 0) (1 <? page_of q))
  /\ res (app API_KEY (on_route GET ["api"; "products"] req) w)
     = {| status := 200; success := true;
          content := Listing []
            (Page.mk (page_of q) 0 0 (limit_of q) (page_of q <? 0) (1 <? page_of q)) |}
  /\ getProducts (products w) (<[k := ""]> q) = getProducts (products w) (delete k q).
Proof.
  intros Hk Hq Hs Hnan q.
  assert (Hget : getProducts (products w) q
    = ([], Page.mk (page_of q) 0 0 (limit_of q) (page_of q <? 0) (1 <? page_of q))).
  { unfold getProducts.
    rewrite (filterProducts_NaN (products w) q k s Hk Hq Hs Hnan).
    rewrite sortProducts_nil. unfold paginate. rewrite slice_nil. simpl.
    rewrite ceil_div_zero by apply limit_of_nonzero. reflexivity. }
  split; [exact Hget | split].
  - unfold app, chain, on_route. route_simpl. cbn -[getProducts].
    fold q. rewrite Hget. reflexivity.
  - apply getProducts_empty_param. exact Hk.
Qed.

Lemma malformed_price_rejects_all_witness :
  getProducts (products sample_world) (query (list_request [("maxPrice", "cheap")]))
  = ([], Page.mk 1 0 0 10 false false).
Proof.
  apply (malformed_price_rejects_all None (list_request [("maxPrice", "cheap")])
           sample_world "maxPrice" "cheap");
    [right; reflexivity | reflexivity | discriminate | reflexivity].
Defined.

(** ** Query engine: pages *)







(** ** Query engine: the pages partition the sorted sequence *)











Lemma render_nonempty (fuel : nat) (n : Z) (acc : string) :
  fuel <> O -> render fuel n acc <> "".
Proof.
  revert n acc. induction fuel as [ | fuel IH]; intros n acc Hf; [congruence | ].
  cbn [render]. destruct (n <? 10); [discriminate | ].
  destruct fuel; [discriminate | apply IH; discriminate].
Qed.



Example decimal_ex : decimal 120 = "120".
Proof. reflexivity. Qed.




(** ** Middleware chain *)

Lemma authenticate_cases (API_KEY : option string) (req : request) :
  authenticate API_KEY req = Next
  \/ exists msg, authenticate API_KEY req = NextErr (AuthenticationError msg).
Proof.
  unfold authenticate. destruct (x_api_key req) as [k | ]; [ | eauto].
  destruct (negb (JsString.truthy k)); [eauto | ].
  destruct (negb (bool_decide (Some k = API_KEY))); eauto.
Qed.

Lemma authenticate_next (API_KEY : option string) (req : request) :
  authenticate API_KEY req = Next ->
  exists k, x_api_key req = Some k /\ k <> "" /\ API_KEY = Some k.
Proof.
  unfold authenticate. destruct (x_api_key req) as [k | ]; [ | discriminate].
  destruct k as [ | c k]; [discriminate | ]. simpl.
  case_bool_decide as Hk; [ | discriminate].
  intros _. exists (String c k). repeat split; [discriminate | congruence].
Qed.

Lemma validateProduct_cases (req : request) :
  validateProduct req = Next
  \/ exists msg, validateProduct req = NextErr (ValidationError msg).
Proof. unfold validateProduct. destruct (0 <? _)%nat; eauto. Qed.

Lemma createProduct_answers (req : request) (w : world) :
  is_next (fst (createProduct req w)) = false
  /\ console (snd (createProduct req w)) = console w.
Proof. unfold createProduct. destruct (destructure (body req)); split; reflexivity. Qed.

Lemma updateProduct_answers (id : string) (req : request) (w : world) :
  is_next (fst (updateProduct id req w)) = false
  /\ console (snd (updateProduct id req w)) = console w.
Proof.
  unfold updateProduct. destruct (findIndex _ _) as [i | ]; [ | split; reflexivity].
  destruct (products w !! i), (destructure (body req)); split; reflexivity.
Qed.

Lemma deleteProduct_answers (id : string) (w : world) :
  is_next (fst (deleteProduct id w)) = false
  /\ console (snd (deleteProduct id w)) = console w.
Proof.
  unfold deleteProduct. destruct (findIndex _ _) as [i | ]; [ | split; reflexivity].
  destruct (products w !! i); split; reflexivity.
Qed.

Lemma getProduct_answers (id : string) (w : world) :
  is_next (fst (getProduct id w)) = false /\ snd (getProduct id w) = w.
Proof. unfold getProduct. destruct (findProductById _ _); split; reflexivity. Qed.

Section Routes.

Variable API_KEY : option string.

Lemma route_create (req : request) :
  classify req = Create ->
  route_stack API_KEY req
  = [ pure_layer Authenticator (authenticate API_KEY);
      pure_layer Validator validateProduct;
      (Handler, createProduct) ].
Proof.
  unfold classify, route_stack. destruct (req_method req).
  - case_bool_decide; [discriminate | destruct (product_id _); discriminate].
  - case_bool_decide; [reflexivity | discriminate].
  - destruct (product_id _); discriminate.
  - destruct (product_id _); discriminate.
Qed.

Lemma route_update (req : request) :
  classify req = Update ->
  exists id, route_stack API_KEY req
  = [ pure_layer Authenticator (authenticate API_KEY);
      pure_layer Validator validateProduct;
      (Handler, updateProduct id) ].
Proof.
  unfold classify, route_stack. destruct (req_method req).
  - case_bool_decide; [discriminate | destruct (product_id _); discriminate].
  - case_bool_decide; discriminate.
  - destruct (product_id _) as [id | ]; [eauto | discriminate].
  - destruct (product_id _); discriminate.
Qed.

Lemma route_delete (req : request) :
  classify req = Delete ->
  exists id, route_stack API_KEY req
  = [ pure_layer Authenticator (authenticate API_KEY);
      (Handler, fun _ w => deleteProduct id w) ].
Proof.
  unfold classify, route_stack. destruct (req_method req).
  - case_bool_decide; [discriminate | destruct (product_id _); discriminate].
  - case_bool_decide; discriminate.
  - destruct (product_id _); discriminate.
  - destruct (product_id _) as [id | ]; [eauto | discriminate].
Qed.

(** The GET routes have a handler only; it answers and leaves the state
    alone. *)
Lemma route_read (req : request) :
  classify req = Read ->
  exists h, route_stack API_KEY req = [(Handler, h)]
    /\ forall w, is_next (fst (h req w)) = false /\ snd (h req w) = w.
Proof.
  unfold classify, route_stack. destruct (req_method req).
  - intros Hk. repeat case_bool_decide; try (exfalso; tauto).
    all: try (destruct (product_id (path req)) as [id | ]; [ | discriminate]).
    all: eexists; (split; [reflexivity | ]); intros w.
    all: first [ split; reflexivity
               | destruct (getProducts _ _); split; reflexivity
               | apply getProduct_answers ].
  - case_bool_decide; discriminate.
  - destruct (product_id _); discriminate.
  - destruct (product_id _); discriminate.
Qed.

Lemma route_unmatched (req : request) :
  classify req = Unmatched -> route_stack API_KEY req = [].
Proof.
  unfold classify, route_stack. destruct (req_method req).
  - intros Hk. repeat case_bool_decide; try discriminate; try (exfalso; tauto).
    + subst. match goal with H : path req = _ |- _ => rewrite H in Hk end.
      discriminate.
    + destruct (product_id _); [discriminate | reflexivity].
  - case_bool_decide; [discriminate | reflexivity].
  - destruct (product_id _); [discriminate | reflexivity].
  - destruct (product_id _); [discriminate | reflexivity].
Qed.

End Routes.

(** One step of the chain, by what the layer in front does. *)
Lemma run_next (s : stage) (f : request -> world -> outcome * world) (rest : list layer)
    (req : request) (w w' : world) (ran : list stage) :
  f req w = (Next, w') ->
  run (((s, f) : layer) :: rest) req w ran = run rest req w' (push ran s).
Proof. intros H. simpl. rewrite H. reflexivity. Qed.

Lemma run_error (s : stage) (f : request -> world -> outcome * world) (rest : list layer)
    (req : request) (w w' : world) (ran : list stage) (e : error) :
  f req w = (NextErr e, w') ->
  run (((s, f) : layer) :: rest) req w ran
  = {| res := errorHandler e; final := w'; trace := push ran s |}.
Proof. intros H. simpl. rewrite H. reflexivity. Qed.

Lemma run_send (s : stage) (f : request -> world -> outcome * world) (rest : list layer)
    (req : request) (w w' : world) (ran : list stage) (r : response) :
  f req w = (Send r, w') ->
  run (((s, f) : layer) :: rest) req w ran = {| res := r; final := w'; trace := push ran s |}.
Proof. intros H. simpl. rewrite H. reflexivity. Qed.

(** A handler that never calls [next()] ends the request. *)
Lemma run_handler (s : stage) (h : request -> world -> outcome * world) (rest : list layer)
    (req : request) (w : world) (ran : list stage) :
  is_next (fst (h req w)) = false ->
  trace (run (((s, h) : layer) :: rest) req w ran) = push ran s
  /\ final (run (((s, h) : layer) :: rest) req w ran) = snd (h req w).
Proof.
  intros H. simpl. destruct (h req w) as [o w']. destruct o; [discriminate | | ]; split; reflexivity.
Qed.

Lemma run_pure_next (s : stage) (f : request -> outcome) (rest : list layer)
    (req : request) (w : world) (ran : list stage) :
  f req = Next ->
  run (pure_layer s f :: rest) req w ran = run rest req w (push ran s).
Proof. intros H. simpl. rewrite H. reflexivity. Qed.

Lemma run_pure_error (s : stage) (f : request -> outcome) (rest : list layer)
    (req : request) (w : world) (ran : list stage) (e : error) :
  f req = NextErr e ->
  run (pure_layer s f :: rest) req w ran
  = {| res := errorHandler e; final := w; trace := push ran s |}.
Proof. intros H. simpl. rewrite H. reflexivity. Qed.

Lemma app_summary (API_KEY : option string) (req : request) (w : world) :
  let r := app API_KEY req w in
  trace r = expected_trace API_KEY req
  /\ console (final r) = push (console w) (log_line req)
  /\ (~ In Handler (trace r) -> products (final r) = products w)
  /\ (forall e, (classify req = Create \/ classify req = Update \/ classify req = Delete) ->
      authenticate API_KEY req = NextErr e -> res r = errorHandler e)
  /\ (forall e, (classify req = Create \/ classify req = Update) ->
      authenticate API_KEY req = Next ->
      validateProduct req = NextErr e -> res r = errorHandler e).
Proof.
  intros r. unfold r, app, chain, expected_trace. clear r.
  set (w1 := {| products := products w; console := push (console w) (log_line req) |}).
  set (nf := pure_layer NotFoundHandler _).
  assert (Hlog : requestLogger req w = (Next, w1)) by reflexivity.
  cbn [Datatypes.app]. rewrite (run_next _ _ _ _ _ _ _ Hlog).
  destruct (classify req) eqn:Hk.
  - rewrite (route_create API_KEY req Hk). cbn [Datatypes.app].
    destruct (authenticate_cases API_KEY req) as [Ha | [m Ha]]; rewrite Ha.
    + rewrite (run_pure_next _ _ _ _ _ _ Ha).
      destruct (validateProduct_cases req) as [Hv | [m Hv]]; rewrite Hv.
      * rewrite (run_pure_next _ _ _ _ _ _ Hv).
        destruct (createProduct_answers req w1) as [Hn Hc].
        destruct (run_handler Handler createProduct [nf] req w1
                    (push (push (push [] Logger) Authenticator) Validator) Hn) as [Ht Hf].
        rewrite Ht, Hf, Hc. simpl. finish_summary.
      * rewrite (run_pure_error _ _ _ _ _ _ _ Hv). simpl. finish_summary.
    + rewrite (run_pure_error _ _ _ _ _ _ _ Ha). simpl. finish_summary.
  - destruct (route_update API_KEY req Hk) as [id Hr]. rewrite Hr. cbn [Datatypes.app].
    destruct (authenticate_cases API_KEY req) as [Ha | [m Ha]]; rewrite Ha.
    + rewrite (run_pure_next _ _ _ _ _ _ Ha).
      destruct (validateProduct_cases req) as [Hv | [m Hv]]; rewrite Hv.
      * rewrite (run_pure_next _ _ _ _ _ _ Hv).
        destruct (updateProduct_answers id req w1) as [Hn Hc].
        destruct (run_handler Handler (updateProduct id) [nf] req w1
                    (push (push (push [] Logger) Authenticator) Validator) Hn) as [Ht Hf].
        rewrite Ht, Hf, Hc. simpl. finish_summary.
      * rewrite (run_pure_error _ _ _ _ _ _ _ Hv). simpl. finish_summary.
    + rewrite (run_pure_error _ _ _ _ _ _ _ Ha). simpl. finish_summary.
  - destruct (route_delete API_KEY req Hk) as [id Hr]. rewrite Hr. cbn [Datatypes.app].
    destruct (authenticate_cases API_KEY req) as [Ha | [m Ha]]; rewrite Ha.
    + rewrite (run_pure_next _ _ _ _ _ _ Ha).
      destruct (deleteProduct_answers id w1) as [Hn Hc].
      destruct (run_handler Handler (fun _ w => deleteProduct id w) [nf] req w1
                  (push (push [] Logger) Authenticator) Hn) as [Ht Hf].
      rewrite Ht, Hf, Hc. simpl. finish_summary.
    + rewrite (run_pure_error _ _ _ _ _ _ _ Ha). simpl. finish_summary.
  - destruct (route_read API_KEY req Hk) as (h & Hr & Hh). rewrite Hr. cbn [Datatypes.app].
    destruct (Hh w1) as [Hn Hs].
    destruct (run_handler Handler h [nf] req w1 (push [] Logger) Hn) as [Ht Hf].
    rewrite Ht, Hf, Hs. simpl. finish_summary.
  - rewrite (route_unmatched API_KEY req Hk). cbn [Datatypes.app].
    unfold nf. rewrite (run_pure_error _ _ _ _ _ _ (NotFoundError "Route not found"))
      by reflexivity.
    simpl. finish_summary.
Qed.

Lemma authenticate_rejects (API_KEY : option string) (req : request) :
  x_api_key req = None \/ x_api_key req <> API_KEY ->
  exists msg, authenticate API_KEY req = NextErr (AuthenticationError msg).
Proof.
  intros Hbad. destruct (authenticate_cases API_KEY req) as [Ha | Ha]; [ | exact Ha].
  destruct (authenticate_next API_KEY req Ha) as (k & Hk & _ & Hs).
  destruct Hbad as [Hnone | Hdiff]; congruence.
Qed.

Lemma expected_trace_ordered (API_KEY : option string) (req : request) :
  sublist (expected_trace API_KEY req) stage_order
  /\ exists rest, expected_trace API_KEY req = Logger :: rest.
Proof.
  unfold expected_trace, stage_order.
  destruct (classify req);
    repeat match goal with |- context [if negb (is_next ?o) then _ else _] =>
             destruct (negb (is_next o)) end;
    (split; [ | eexists; reflexivity]);
    repeat first [ apply sublist_nil | apply sublist_skip | apply sublist_cons ].
Qed.

(** C8: every request enters the logger first; a mutating route then
    enters the authenticator, a create or update route after it the
    validator, and the handler comes last.  The stages entered are exactly
    those in front of which every earlier stage called [next()]: once a
    stage halts with a failure, neither a later stage nor the handler is
    entered.  A create or update request whose API key is missing or wrong
    ends in the authenticator with status 401: it reaches neither the
    validator nor the handler and the stored collection is unchanged. *)
Theorem middleware_chain_order (API_KEY : option string) (req : request) (w : world) :
  let r := app API_KEY req w in
  trace r = expected_trace API_KEY req
  /\ sublist (trace r) stage_order
  /\ (exists rest, trace r = Logger :: rest)
  /\ console (final r) = push (console w) (log_line req)
  /\ (~ In Handler (trace r) -> products (final r) = products w)
  /\ (classify req = Create \/ classify req = Update ->
      x_api_key req = None \/ x_api_key req <> API_KEY ->
      trace r = [Logger; Authenticator]
      /\ ~ In Validator (trace r) /\ ~ In Handler (trace r)
      /\ products (final r) = products w
      /\ status (res r) = 401 /\ success (res r) = false)
  /\ (classify req = Create \/ classify req = Update ->
      authenticate API_KEY req = Next -> validateProduct req <> Next ->
      trace r = [Logger; Authenticator; Validator]
      /\ ~ In Handler (trace r)
      /\ products (final r) = products w
      /\ status (res r) = 400 /\ success (res r) = false)
  /\ (classify req = Delete ->
      x_api_key req = None \/ x_api_key req <> API_KEY ->
      trace r = [Logger; Authenticator]
      /\ products (final r) = products w /\ status (res r) = 401).
Proof.
  intros r.
  destruct (app_summary API_KEY req w) as (Ht & Hc & Hp & Hauth & Hval).
  fold r in Ht, Hc, Hp, Hauth, Hval.
  destruct (expected_trace_ordered API_KEY req) as [Hsub Hhead].
  split; [exact Ht | ].
  split; [rewrite Ht; exact Hsub | ].
  split; [rewrite Ht; exact Hhead | ].
  split; [exact Hc | ].
  split; [exact Hp | ].
  split; [ | split].
  - intros Hk Hbad.
    destruct (authenticate_rejects API_KEY req Hbad) as [m Ha].
    assert (Htr : trace r = [Logger; Authenticator]).
    { rewrite Ht. unfold expected_trace. destruct Hk as [-> | ->]; rewrite Ha; reflexivity. }
    assert (Hres : res r = errorHandler (AuthenticationError m)).
    { apply Hauth; [tauto | exact Ha]. }
    assert (Hnh : ~ In Handler (trace r)).
    { rewrite Htr. simpl. intuition discriminate. }
    repeat split; try assumption.
    + rewrite Htr. simpl. intuition discriminate.
    + apply Hp, Hnh.
    + rewrite Hres. reflexivity.
    + rewrite Hres. reflexivity.
  - intros Hk Ha Hv.
    destruct (validateProduct_cases req) as [Hn | [m Hm]]; [congruence | ].
    assert (Htr : trace r = [Logger; Authenticator; Validator]).
    { rewrite Ht. unfold expected_trace. destruct Hk as [-> | ->]; rewrite Ha, Hm; reflexivity. }
    assert (Hres : res r = errorHandler (ValidationError m)).
    { apply Hval; assumption. }
    assert (Hnh : ~ In Handler (trace r)).
    { rewrite Htr. simpl. intuition discriminate. }
    repeat split; try assumption.
    + apply Hp, Hnh.
    + rewrite Hres. reflexivity.
    + rewrite Hres. reflexivity.
  - intros Hk Hbad.
    destruct (authenticate_rejects API_KEY req Hbad) as [m Ha].
    assert (Htr : trace r = [Logger; Authenticator]).
    { rewrite Ht. unfold expected_trace. rewrite Hk, Ha. reflexivity. }
    assert (Hres : res r = errorHandler (AuthenticationError m)).
    { apply Hauth; [tauto | exact Ha]. }
    repeat split; try assumption.
    + apply Hp. rewrite Htr. simpl. intuition discriminate.
    + rewrite Hres. reflexivity.
Qed.

Lemma middleware_chain_order_witness :
  let r := app (Some "secret") (post_request (Some "guess") valid_body) sample_world in
  trace r = [Logger; Authenticator]
  /\ ~ In Validator (trace r) /\ ~ In Handler (trace r)
  /\ products (final r) = products sample_world
  /\ status (res r) = 401 /\ success (res r) = false.
Proof.
  apply (middleware_chain_order (Some "secret") (post_request (Some "guess") valid_body)
           sample_world).
  - left. reflexivity.
  - right. discriminate.
Defined.

(** ** Create and update *)

Lemma findIndex_lookup {A : Type} (f : A -> bool) (l : list A) (i : nat) :
  findIndex f l = Some i -> exists x, l !! i = Some x /\ f x = true.
Proof.
  revert i. induction l as [ | y l IH]; intros i; simpl; [discriminate | ].
  destruct (f y) eqn:Hy.
  - intros [= <-]. exists y. split; [reflexivity | exact Hy].
  - destruct (findIndex f l) as [j | ]; [ | discriminate].
    intros [= <-]. destruct (IH j eq_refl) as (x & Hx & Hfx). exists x. split; assumption.
Qed.

(** A body that passes validation has the four required fields with the
    right types, and the handlers read exactly those. *)
Lemma validated_body (req : request) :
  validateProduct req = Next ->
  exists n d pr c,
    get (body req) "name" = VStr n /\ JsString.trim n <> ""
    /\ get (body req) "description" = VStr d /\ d <> ""
    /\ get (body req) "price" = VNum pr /\ (0 <= pr)%Q
    /\ get (body req) "category" = VStr c /\ JsString.trim c <> ""
    /\ destructure (body req) = Some (mkFields n d pr c (inStock_field (body req))).
Proof.
  unfold validateProduct. intros Hv.
  assert (He : validation_errors (body req) = []).
  { destruct (validation_errors (body req)); [reflexivity | discriminate]. }
  clear Hv. unfold validation_errors, push in He.
  destruct (name_invalid (get (body req) "name")) eqn:Hn;
    [destruct (description_invalid _), (price_invalid _), (category_invalid _),
       (inStock_invalid _); discriminate | ].
  destruct (description_invalid (get (body req) "description")) eqn:Hd;
    [destruct (price_invalid _), (category_invalid _), (inStock_invalid _); discriminate | ].
  destruct (price_invalid (get (body req) "price")) eqn:Hp;
    [destruct (category_invalid _), (inStock_invalid _); discriminate | ].
  destruct (category_invalid (get (body req) "category")) eqn:Hc;
    [destruct (inStock_invalid _); discriminate | ].
  destruct (inStock_invalid (get (body req) "inStock")) eqn:Hi; [discriminate | ].
  apply name_invalid_false in Hn. destruct Hn as (n & Hn & Hn').
  apply description_invalid_false in Hd. destruct Hd as (d & Hd & Hd').
  apply price_invalid_false in Hp. destruct Hp as (pr & Hp & Hp').
  apply name_invalid_false in Hc. destruct Hc as (c & Hc & Hc').
  apply inStock_invalid_false in Hi.
  exists n, d, pr, c. repeat split; try assumption.
  unfold destructure, inStock_field. rewrite Hn, Hd, Hp, Hc.
  destruct Hi as [-> | (i & ->)]; reflexivity.
Qed.

Section Mutations.

Variable API_KEY : option string.

Lemma classify_update (req : request) (id : string) :
  req_method req = PUT -> path req = ["api"; "products"; id] -> classify req = Update.
Proof. intros Hm Hp. unfold classify. rewrite Hm, Hp. reflexivity. Qed.

Lemma classify_create (req : request) :
  req_method req = POST -> path req = ["api"; "products"] -> classify req = Create.
Proof. intros Hm Hp. unfold classify. rewrite Hm, Hp. reflexivity. Qed.

(** An authenticated and validated update request is answered by the
    update handler. *)
Lemma app_update (req : request) (w : world) (id : string) (r : response) (w' : world) :
  req_method req = PUT -> path req = ["api"; "products"; id] ->
  authenticate API_KEY req = Next -> validateProduct req = Next ->
  updateProduct id req (logged req w) = (Send r, w') ->
  res (app API_KEY req w) = r /\ final (app API_KEY req w) = w'.
Proof.
  intros Hm Hp Ha Hv Hu. unfold app, chain.
  assert (Hr : route_stack API_KEY req
               = [ pure_layer Authenticator (authenticate API_KEY);
                   pure_layer Validator validateProduct;
                   (Handler, updateProduct id) ]).
  { unfold route_stack. rewrite Hm, Hp. reflexivity. }
  rewrite Hr. cbn [Datatypes.app].
  rewrite (run_next _ _ _ _ w (logged req w)) by reflexivity.
  rewrite (run_pure_next _ _ _ _ _ _ Ha), (run_pure_next _ _ _ _ _ _ Hv).
  rewrite (run_send _ _ _ _ _ _ _ _ Hu). split; reflexivity.
Qed.

Lemma app_create (req : request) (w : world) (r : response) (w' : world) :
  req_method req = POST -> path req = ["api"; "products"] ->
  authenticate API_KEY req = Next -> validateProduct req = Next ->
  createProduct req (logged req w) = (Send r, w') ->
  res (app API_KEY req w) = r /\ final (app API_KEY req w) = w'.
Proof.
  intros Hm Hp Ha Hv Hu. unfold app, chain.
  assert (Hr : route_stack API_KEY req
               = [ pure_layer Authenticator (authenticate API_KEY);
                   pure_layer Validator validateProduct;
                   (Handler, createProduct) ]).
  { unfold route_stack. rewrite Hm, Hp. reflexivity. }
  rewrite Hr. cbn [Datatypes.app].
  rewrite (run_next _ _ _ _ w (logged req w)) by reflexivity.
  rewrite (run_pure_next _ _ _ _ _ _ Ha), (run_pure_next _ _ _ _ _ _ Hv).
  rewrite (run_send _ _ _ _ _ _ _ _ Hu). split; reflexivity.
Qed.

Lemma invalid_body_rejected (req : request) (w : world) :
  classify req = Create \/ classify req = Update ->
  authenticate API_KEY req = Next -> validateProduct req <> Next ->
  products (final (app API_KEY req w)) = products w
  /\ status (res (app API_KEY req w)) = 400.
Proof.
  intros Hk Ha Hv.
  destruct (app_summary API_KEY req w) as (Ht & _ & Hp & _ & Hval).
  destruct (validateProduct_cases req) as [Hn | [m Hm]]; [congruence | ].
  split.
  - apply Hp. rewrite Ht. unfold expected_trace.
    destruct Hk as [-> | ->]; rewrite Ha, Hm; simpl; intuition discriminate.
  - rewrite (Hval (ValidationError m) Hk Ha Hm). reflexivity.
Qed.

End Mutations.

(** C1, as stated, fails: the update route validates the whole body, so
    the body [{price: 120}] sent with the right API key for the stored
    record [{price: 100, inStock: true}] is answered 400 and the stored
    price stays 100. *)
Lemma update_price_only_rejected :
  let r := app (Some "secret") put_price_only stored_100 in
  x_api_key put_price_only = Some "secret"
  /\ body put_price_only = mk_body [("price", VNum (120 # 1))]
  /\ status (res r) = 400
  /\ success (res r) = false
  /\ products (final r) = products stored_100
  /\ map Product.price (products (final r)) = [100 # 1]
  /\ map Product.price (products (final r)) <> [120 # 1].
Proof. vm_compute. repeat split; discriminate. Qed.

(** C1 (amended): update and create only accept a body that passes
    validation, with name, description, price and category all present; an
    incomplete body is rejected with status 400 and the collection is
    unchanged.  On a successful update the four required fields overwrite
    the stored ones (strings trimmed, the category lower-cased), [inStock]
    overwrites when the body has it and keeps its stored value when the
    body omits it, and [id] keeps its stored value; every other record is
    untouched.  A created record takes its [id] from the generator, never
    from the body. *)
Theorem update_merges_inStock_only (API_KEY : option string) (req : request) (w : world) :
  authenticate API_KEY req = Next ->
  let r := app API_KEY req w in
  (forall id, req_method req = PUT -> path req = ["api"; "products"; id] ->
     (validateProduct req <> Next ->
      products (final r) = products w /\ status (res r) = 400)
     /\ (validateProduct req = Next ->
         forall i, findIndex (fun p => String.eqb (Product.id p) id) (products w) = Some i ->
         exists old n d pr c,
           products w !! i = Some old
           /\ get (body req) "name" = VStr n
           /\ get (body req) "description" = VStr d
           /\ get (body req) "price" = VNum pr
           /\ get (body req) "category" = VStr c
           /\ let updated :=
                {| Product.id := Product.id old;
                   Product.name := JsString.trim n;
                   Product.description := JsString.trim d;
                   Product.price := pr;
                   Product.category := JsString.toLowerCase (JsString.trim c);
                   Product.inStock :=
                     default (Product.inStock old) (inStock_field (body req)) |} in
              products (final r) = <[i := updated]> (products w)
              /\ res r = {| status := 200; success := true;
                            content := Changed "Product updated successfully" updated |}))
  /\ (req_method req = POST -> path req = ["api"; "products"] ->
      (validateProduct req <> Next ->
       products (final r) = products w /\ status (res r) = 400)
      /\ (validateProduct req = Next ->
          exists n d pr c,
            get (body req) "name" = VStr n
            /\ get (body req) "description" = VStr d
            /\ get (body req) "price" = VNum pr
            /\ get (body req) "category" = VStr c
            /\ let created :=
                 {| Product.id := uuid req;
                    Product.name := JsString.trim n;
                    Product.description := JsString.trim d;
                    Product.price := pr;
                    Product.category := JsString.toLowerCase (JsString.trim c);
                    Product.inStock := default true (inStock_field (body req)) |} in
               products (final r) = push (products w) created
               /\ res r = {| status := 201; success := true;
                             content := Changed "Product created successfully" created |})).
Proof.
  intros Ha r. split.
  - intros id Hm Hp. split.
    + intros Hv. apply invalid_body_rejected; [ | assumption | assumption].
      right. apply (classify_update req id); assumption.
    + intros Hv i Hi.
      destruct (findIndex_lookup _ _ _ Hi) as (old & Hold & _).
      destruct (validated_body req Hv) as (n & d & pr & c & Hn & _ & Hd & _ & Hpr & _ & Hc & _ & Hf).
      exists old, n, d, pr, c. repeat split; try assumption.
      * unfold r. eapply eq_trans;
          [apply f_equal; eapply (app_update API_KEY req w id); try eassumption | ].
        -- unfold updateProduct. cbn [logged products]. rewrite Hi, Hold, Hf. reflexivity.
        -- cbn [products f_name f_description f_price f_category f_inStock].
           destruct (inStock_field (body req)); reflexivity.
      * unfold r. eapply eq_trans;
          [eapply (app_update API_KEY req w id); try eassumption | ].
        -- unfold updateProduct. cbn [logged products]. rewrite Hi, Hold, Hf. reflexivity.
        -- unfold respond. cbn [f_name f_description f_price f_category f_inStock].
           destruct (inStock_field (body req)); reflexivity.
  - intros Hm Hp. split.
    + intros Hv. apply invalid_body_rejected; [ | assumption | assumption].
      left. apply (classify_create req); assumption.
    + intros Hv.
      destruct (validated_body req Hv) as (n & d & pr & c & Hn & _ & Hd & _ & Hpr & _ & Hc & _ & Hf).
      exists n, d, pr, c. repeat split; try assumption.
      * unfold r. eapply eq_trans;
          [apply f_equal; eapply (app_create API_KEY req w); try eassumption | ].
        -- unfold createProduct. rewrite Hf. reflexivity.
        -- reflexivity.
      * unfold r. eapply eq_trans;
          [eapply (app_create API_KEY req w); try eassumption | ].
        -- unfold createProduct. rewrite Hf. reflexivity.
        -- reflexivity.
Qed.

Lemma update_merges_inStock_only_witness :
  (products (final (app (Some "secret") put_price_only stored_100)) = products stored_100
   /\ status (res (app (Some "secret") put_price_only stored_100)) = 400)
  /\ exists old n d pr c,
       products stored_100 !! O = Some old
       /\ get (body put_valid) "name" = VStr n
       /\ get (body put_valid) "description" = VStr d
       /\ get (body put_valid) "price" = VNum pr
       /\ get (body put_valid) "category" = VStr c
       /\ let updated :=
            {| Product.id := Product.id old;
               Product.name := JsString.trim n;
               Product.description := JsString.trim d;
               Product.price := pr;
               Product.category := JsString.toLowerCase (JsString.trim c);
               Product.inStock := default (Product.inStock old) (inStock_field (body put_valid)) |} in
          products (final (app (Some "secret") put_valid stored_100))
          = <[O := updated]> (products stored_100)
          /\ res (app (Some "secret") put_valid stored_100)
             = {| status := 200; success := true;
                  content := Changed "Product updated successfully" updated |}.
Proof.
  split.
  - destruct (update_merges_inStock_only (Some "secret") put_price_only stored_100
                ltac:(vm_compute; reflexivity)) as [Hupdate _].
    apply (Hupdate "1" eq_refl eq_refl). vm_compute. discriminate.
  - destruct (update_merges_inStock_only (Some "secret") put_valid stored_100
                ltac:(vm_compute; reflexivity)) as [Hupdate _].
    apply (Hupdate "1" eq_refl eq_refl); vm_compute; reflexivity.
Defined.

Example put_valid_ex :
  products (final (app (Some "secret") put_valid stored_100))
  = [Product.mk "1" "Wireless Mouse" "Ergonomic wireless mouse" (2999 # 100)
       "electronics" true].
Proof. vm_compute. reflexivity. Qed.

(** * Further properties of the routes *)

(** ** The routes, case by case *)

Lemma run_handler_eq (s : stage) (h : request -> world -> outcome * world)
    (rest : list layer) (req : request) (w : world) (ran : list stage) :
  is_next (fst (h req w)) = false ->
  run (((s, h) : layer) :: rest) req w ran
  = {| res := reply (fst (h req w)); final := snd (h req w); trace := push ran s |}.
Proof.
  intros H. simpl. destruct (h req w) as [o w']. destruct o; [discriminate | | ]; reflexivity.
Qed.

Section Cases.

Variable API_KEY : option string.

Lemma app_unmatched (req : request) (w : world) :
  classify req = Unmatched ->
  app API_KEY req w
  = {| res := errorHandler (NotFoundError "Route not found");
       final := logged req w; trace := [Logger; NotFoundHandler] |}.
Proof.
  intros Hk. unfold app, chain. rewrite (route_unmatched API_KEY req Hk).
  cbn [Datatypes.app].
  rewrite (run_next _ _ _ _ w (logged req w)) by reflexivity.
  rewrite (run_pure_error _ _ _ _ _ _ (NotFoundError "Route not found")) by reflexivity.
  reflexivity.
Qed.

Lemma app_read (req : request) (w : world) :
  classify req = Read ->
  exists h, route_stack API_KEY req = [(Handler, h)]
    /\ (forall w0, is_next (fst (h req w0)) = false /\ snd (h req w0) = w0)
    /\ app API_KEY req w
       = {| res := reply (fst (h req (logged req w)));
            final := logged req w; trace := [Logger; Handler] |}.
Proof.
  intros Hk. destruct (route_read API_KEY req Hk) as (h & Hr & Hh).
  exists h. split; [exact Hr | split; [exact Hh | ]].
  unfold app, chain. rewrite Hr. cbn [Datatypes.app].
  rewrite (run_next _ _ _ _ w (logged req w)) by reflexivity.
  destruct (Hh (logged req w)) as [Hn Hs].
  rewrite (run_handler_eq _ _ _ _ _ _ Hn), Hs. reflexivity.
Qed.

Lemma app_rejected_key (req : request) (w : world) (e : error) :
  classify req = Create \/ classify req = Update \/ classify req = Delete ->
  authenticate API_KEY req = NextErr e ->
  app API_KEY req w
  = {| res := errorHandler e; final := logged req w; trace := [Logger; Authenticator] |}.
Proof.
  intros Hk Ha. unfold app, chain.
  assert (Hr : exists rest, route_stack API_KEY req
                            = pure_layer Authenticator (authenticate API_KEY) :: rest).
  { destruct Hk as [Hk | [Hk | Hk]].
    - rewrite (route_create API_KEY req Hk). eauto.
    - destruct (route_update API_KEY req Hk) as [id ->]. eauto.
    - destruct (route_delete API_KEY req Hk) as [id ->]. eauto. }
  destruct Hr as [rest ->]. cbn [Datatypes.app].
  rewrite (run_next _ _ _ _ w (logged req w)) by reflexivity.
  rewrite (run_pure_error _ _ _ _ _ _ _ Ha). reflexivity.
Qed.

Lemma app_rejected_body (req : request) (w : world) (e : error) :
  classify req = Create \/ classify req = Update ->
  authenticate API_KEY req = Next -> validateProduct req = NextErr e ->
  app API_KEY req w
  = {| res := errorHandler e; final := logged req w;
       trace := [Logger; Authenticator; Validator] |}.
Proof.
  intros Hk Ha Hv. unfold app, chain.
  assert (Hr : exists rest, route_stack API_KEY req
                            = pure_layer Authenticator (authenticate API_KEY)
                              :: pure_layer Validator validateProduct :: rest).
  { destruct Hk as [Hk | Hk].
    - rewrite (route_create API_KEY req Hk). eauto.
    - destruct (route_update API_KEY req Hk) as [id ->]. eauto. }
  destruct Hr as [rest ->]. cbn [Datatypes.app].
  rewrite (run_next _ _ _ _ w (logged req w)) by reflexivity.
  rewrite (run_pure_next _ _ _ _ _ _ Ha), (run_pure_error _ _ _ _ _ _ _ Hv). reflexivity.
Qed.

Lemma app_created (req : request) (w : world) :
  classify req = Create ->
  authenticate API_KEY req = Next -> validateProduct req = Next ->
  app API_KEY req w
  = {| res := reply (fst (createProduct req (logged req w)));
       final := snd (createProduct req (logged req w));
       trace := [Logger; Authenticator; Validator; Handler] |}.
Proof.
  intros Hk Ha Hv. unfold app, chain. rewrite (route_create API_KEY req Hk).
  cbn [Datatypes.app].
  rewrite (run_next _ _ _ _ w (logged req w)) by reflexivity.
  rewrite (run_pure_next _ _ _ _ _ _ Ha), (run_pure_next _ _ _ _ _ _ Hv).
  rewrite run_handler_eq by apply createProduct_answers. reflexivity.
Qed.

Lemma app_updated (req : request) (w : world) (id : string) :
  req_method req = PUT -> product_id (path req) = Some id ->
  authenticate API_KEY req = Next -> validateProduct req = Next ->
  app API_KEY req w
  = {| res := reply (fst (updateProduct id req (logged req w)));
       final := snd (updateProduct id req (logged req w));
       trace := [Logger; Authenticator; Validator; Handler] |}.
Proof.
  intros Hm Hp Ha Hv. unfold app, chain, route_stack. rewrite Hm, Hp.
  cbn [Datatypes.app].
  rewrite (run_next _ _ _ _ w (logged req w)) by reflexivity.
  rewrite (run_pure_next _ _ _ _ _ _ Ha), (run_pure_next _ _ _ _ _ _ Hv).
  rewrite run_handler_eq by apply updateProduct_answers. reflexivity.
Qed.

Lemma app_deleted (req : request) (w : world) (id : string) :
  req_method req = DELETE -> product_id (path req) = Some id ->
  authenticate API_KEY req = Next ->
  app API_KEY req w
  = {| res := reply (fst (deleteProduct id (logged req w)));
       final := snd (deleteProduct id (logged req w));
       trace := [Logger; Authenticator; Handler] |}.
Proof.
  intros Hm Hp Ha. unfold app, chain, route_stack. rewrite Hm, Hp.
  cbn [Datatypes.app].
  rewrite (run_next _ _ _ _ w (logged req w)) by reflexivity.
  rewrite (run_pure_next _ _ _ _ _ _ Ha).
  rewrite (run_handler_eq Handler (fun _ w0 => deleteProduct id w0))
    by apply deleteProduct_answers.
  reflexivity.
Qed.

Lemma app_got (req : request) (w : world) (id : string) :
  req_method req = GET -> path req = ["api"; "products"; id] -> id <> "stats" ->
  app API_KEY req w
  = {| res := reply (fst (getProduct id (logged req w)));
       final := logged req w; trace := [Logger; Handler] |}.
Proof.
  intros Hm Hp Hid. unfold app, chain, route_stack. rewrite Hm, Hp.
  rewrite !bool_decide_eq_false_2 by congruence.
  cbn [product_id]. rewrite bool_decide_eq_true_2 by (split; reflexivity).
  cbn [Datatypes.app].
  rewrite (run_next _ _ _ _ w (logged req w)) by reflexivity.
  rewrite (run_handler_eq Handler (fun _ w0 => getProduct id w0))
    by apply getProduct_answers.
  destruct (getProduct_answers id (logged req w)) as [_ ->]. reflexivity.
Qed.

Lemma classify_by_id (req : request) (id : string) :
  product_id (path req) = Some id ->
  (req_method req = PUT -> classify req = Update)
  /\ (req_method req = DELETE -> classify req = Delete).
Proof.
  intros Hp. unfold classify. split; intros ->; rewrite Hp; reflexivity.
Qed.

Lemma classify_inv (req : request) :
  (classify req = Create -> req_method req = POST /\ path req = ["api"; "products"])
  /\ (classify req = Update -> req_method req = PUT /\ exists id, product_id (path req) = Some id)
  /\ (classify req = Delete ->
      req_method req = DELETE /\ exists id, product_id (path req) = Some id).
Proof.
  unfold classify. destruct (req_method req).
  - repeat split; try (case_bool_decide; [discriminate | destruct (product_id _); discriminate]).
  - repeat split; try (case_bool_decide; discriminate).
    case_bool_decide; [assumption | discriminate].
  - repeat split; try (destruct (product_id _); discriminate).
    destruct (product_id (path req)) as [id | ]; [eauto | discriminate].
  - repeat split; try (destruct (product_id _); discriminate).
    destruct (product_id (path req)) as [id | ]; [eauto | discriminate].
Qed.

End Cases.

(** ** Looking a product up by its id *)

Lemma has_id_true (id : string) (p : product) : has_id id p = true <-> Product.id p = id.
Proof. unfold has_id. apply String.eqb_eq. Qed.

Lemma has_id_false (id : string) (p : product) : has_id id p = false <-> Product.id p <> id.
Proof. unfold has_id. apply String.eqb_neq. Qed.

Lemma no_match_Forall (id : string) (l : list product) :
  Forall (fun p => Product.id p <> id) l <-> Forall (fun p => has_id id p = false) l.
Proof. split; intros H; eapply Forall_impl; try exact H; intros p; apply has_id_false. Qed.

Lemma findIndex_none {A : Type} (f : A -> bool) (l : list A) :
  Forall (fun x => f x = false) l -> findIndex f l = None.
Proof.
  induction 1 as [ | x l Hx _ IH]; simpl; [reflexivity | ].
  rewrite Hx, IH. reflexivity.
Qed.

Lemma findIndex_first {A : Type} (f : A -> bool) (pre : list A) (x : A) (post : list A) :
  Forall (fun y => f y = false) pre -> f x = true ->
  findIndex f (pre ++ x :: post)%list = Some (length pre).
Proof.
  intros Hpre Hx. induction Hpre as [ | y pre Hy _ IH]; simpl.
  - rewrite Hx. reflexivity.
  - rewrite Hy, IH. reflexivity.
Qed.


Lemma find_first {A : Type} (f : A -> bool) (pre : list A) (x : A) (post : list A) :
  Forall (fun y => f y = false) pre -> f x = true ->
  List.find f (pre ++ x :: post)%list = Some x.
Proof.
  intros Hpre Hx. induction Hpre as [ | y pre Hy _ IH]; simpl.
  - rewrite Hx. reflexivity.
  - rewrite Hy. exact IH.
Qed.

(** Either no element satisfies [f], or there is a first one. *)
Lemma first_match {A : Type} (f : A -> bool) (l : list A) :
  Forall (fun x => f x = false) l
  \/ exists pre x post, l = (pre ++ x :: post)%list /\ f x = true
                        /\ Forall (fun y => f y = false) pre.
Proof.
  induction l as [ | y l IH]; [left; constructor | ].
  destruct (f y) eqn:Hy.
  - right. exists [], y, l. repeat split; [exact Hy | constructor].
  - destruct IH as [Hall | (pre & x & post & -> & Hx & Hpre)].
    + left. constructor; assumption.
    + right. exists (y :: pre), x, post. repeat split; [exact Hx | constructor; assumption].
Qed.

Lemma not_found_response (id : string) :
  errorHandler (NotFoundError ("Product with ID " ++ id ++ " not found"))
  = {| status := 404; success := false;
       content := Failure ("Product with ID " ++ id ++ " not found") |}.
Proof. reflexivity. Qed.


Lemma getProduct_first (id : string) (w : world) (pre : list product) (p : product)
    (post : list product) :
  products w = (pre ++ p :: post)%list -> Product.id p = id ->
  Forall (fun x => Product.id x <> id) pre ->
  getProduct id w = (respond 200 (Single p), w).
Proof.
  intros Hw Hp Hpre. unfold getProduct, findProductById. rewrite Hw.
  rewrite (find_first (has_id id)); [reflexivity | | ].
  - apply no_match_Forall. exact Hpre.
  - apply has_id_true. exact Hp.
Qed.

Lemma deleteProduct_missing (id : string) (w : world) :
  Forall (fun p => Product.id p <> id) (products w) ->
  deleteProduct id w
  = (NextErr (NotFoundError ("Product with ID " ++ id ++ " not found")), w).
Proof.
  intros Hno. unfold deleteProduct.
  rewrite (findIndex_none (has_id id)) by (apply no_match_Forall; exact Hno). reflexivity.
Qed.

Lemma deleteProduct_first (id : string) (w : world) (pre : list product) (p : product)
    (post : list product) :
  products w = (pre ++ p :: post)%list -> Product.id p = id ->
  Forall (fun x => Product.id x <> id) pre ->
  deleteProduct id w
  = (respond 200 (Changed "Product deleted successfully" p),
     {| products := (pre ++ post)%list; console := console w |}).
Proof.
  intros Hw Hp Hpre. unfold deleteProduct. rewrite Hw.
  rewrite (findIndex_first (has_id id));
    [ | apply no_match_Forall; exact Hpre | apply has_id_true; exact Hp].
  rewrite list_lookup_middle by reflexivity.
  unfold splice1. rewrite take_app_length.
  rewrite (cons_middle p pre post), app_assoc.
  rewrite drop_app_length'; [reflexivity | rewrite length_app; simpl; lia].
Qed.

Lemma updateProduct_missing (id : string) (req : request) (w : world) :
  Forall (fun p => Product.id p <> id) (products w) ->
  updateProduct id req w
  = (NextErr (NotFoundError ("Product with ID " ++ id ++ " not found")), w).
Proof.
  intros Hno. unfold updateProduct.
  rewrite (findIndex_none (has_id id)) by (apply no_match_Forall; exact Hno). reflexivity.
Qed.

Lemma updateProduct_first (id : string) (req : request) (w : world) (f : fields)
    (pre : list product) (p : product) (post : list product) :
  destructure (body req) = Some f ->
  products w = (pre ++ p :: post)%list -> Product.id p = id ->
  Forall (fun x => Product.id x <> id) pre ->
  updateProduct id req w
  = (respond 200 (Changed "Product updated successfully"
                    (normalized id f (default (Product.inStock p) (f_inStock f)))),
     {| products := (pre ++ normalized id f (default (Product.inStock p) (f_inStock f))
                     :: post)%list;
        console := console w |}).
Proof.
  intros Hf Hw Hp Hpre. unfold updateProduct. rewrite Hw.
  rewrite (findIndex_first (has_id id));
    [ | apply no_match_Forall; exact Hpre | apply has_id_true; exact Hp].
  rewrite list_lookup_middle by reflexivity. rewrite Hf.
  rewrite insert_app_r_alt by lia. rewrite Nat.sub_diag. subst id.
  unfold normalized. destruct (f_inStock f); reflexivity.
Qed.

Lemma createProduct_valid (req : request) (w : world) (f : fields) :
  destructure (body req) = Some f ->
  createProduct req w
  = (respond 201 (Changed "Product created successfully"
                    (normalized (uuid req) f (default true (f_inStock f)))),
     {| products := push (products w) (normalized (uuid req) f (default true (f_inStock f)));
        console := console w |}).
Proof. intros Hf. unfold createProduct. rewrite Hf. reflexivity. Qed.

Lemma validated_fields (req : request) :
  validateProduct req = Next ->
  exists f, destructure (body req) = Some f
    /\ JsString.trim (f_name f) <> "" /\ (0 <= f_price f)%Q
    /\ JsString.trim (f_category f) <> "".
Proof.
  intros Hv.
  destruct (validated_body req Hv)
    as (n & d & pr & c & _ & Hn & _ & _ & _ & Hpr & _ & Hc & Hf).
  eexists. split; [exact Hf | ]. simpl. repeat split; assumption.
Qed.


(** ** What a request can do to the collection *)

Lemma errorHandler_status (e : error) (st : Z) :
  statusCode e = Some st -> failure_with st (errorHandler e).
Proof. intros H. unfold failure_with, errorHandler. rewrite H. eexists. reflexivity. Qed.

Lemma route_read_answers (API_KEY : option string) (req : request) :
  classify req = Read ->
  exists h, route_stack API_KEY req = [(Handler, h)]
    /\ forall w0, (exists p, h req w0 = (respond 200 p, w0))
                  \/ (exists m, h req w0 = (NextErr (NotFoundError m), w0)).
Proof.
  unfold classify, route_stack. destruct (req_method req).
  - intros Hk. repeat case_bool_decide; try (exfalso; tauto).
    all: try (destruct (product_id (path req)) as [id | ]; [ | discriminate]).
    all: eexists; (split; [reflexivity | ]); intros w0.
    all: first
      [ left; eexists; reflexivity
      | left; destruct (getProducts (products w0) (query req)); eexists; reflexivity
      | unfold getProduct; destruct (findProductById _ _); [left | right];
        eexists; reflexivity ].
  - case_bool_decide; discriminate.
  - destruct (product_id _); discriminate.
  - destruct (product_id _); discriminate.
Qed.

(** Every request either leaves the collection as it was, or it is an
    authenticated and validated create, an authenticated and validated
    update of an existing record, or an authenticated delete of an
    existing record. *)
Lemma app_outcomes (API_KEY : option string) (req : request) (w : world) :
  let r := app API_KEY req w in
  (final r = logged req w
   /\ (success_with 200 (res r) \/ failure_with 400 (res r)
       \/ failure_with 401 (res r) \/ failure_with 404 (res r))
   /\ (failure_with 401 (res r) <-> authenticate API_KEY req <> Next
                                     /\ classify req <> Read /\ classify req <> Unmatched))
  \/ (classify req = Create /\ authenticate API_KEY req = Next
      /\ exists f, destructure (body req) = Some f
         /\ JsString.trim (f_name f) <> "" /\ (0 <= f_price f)%Q
         /\ JsString.trim (f_category f) <> ""
         /\ r = {| res := {| status := 201; success := true;
                             content := Changed "Product created successfully"
                               (normalized (uuid req) f (default true (f_inStock f))) |};
                   final := {| products := push (products w)
                                 (normalized (uuid req) f (default true (f_inStock f)));
                               console := push (console w) (log_line req) |};
                   trace := [Logger; Authenticator; Validator; Handler] |})
  \/ (classify req = Update /\ authenticate API_KEY req = Next
      /\ exists id f pre p post,
         product_id (path req) = Some id /\ destructure (body req) = Some f
         /\ JsString.trim (f_name f) <> "" /\ (0 <= f_price f)%Q
         /\ JsString.trim (f_category f) <> ""
         /\ products w = (pre ++ p :: post)%list /\ Product.id p = id
         /\ Forall (fun x => Product.id x <> id) pre
         /\ r = {| res := {| status := 200; success := true;
                             content := Changed "Product updated successfully"
                               (normalized id f (default (Product.inStock p) (f_inStock f))) |};
                   final := {| products :=
                                 (pre ++ normalized id f
                                           (default (Product.inStock p) (f_inStock f))
                                  :: post)%list;
                               console := push (console w) (log_line req) |};
                   trace := [Logger; Authenticator; Validator; Handler] |})
  \/ (classify req = Delete /\ authenticate API_KEY req = Next
      /\ exists id pre p post,
         product_id (path req) = Some id
         /\ products w = (pre ++ p :: post)%list /\ Product.id p = id
         /\ Forall (fun x => Product.id x <> id) pre
         /\ r = {| res := {| status := 200; success := true;
                             content := Changed "Product deleted successfully" p |};
                   final := {| products := (pre ++ post)%list;
                               console := push (console w) (log_line req) |};
                   trace := [Logger; Authenticator; Handler] |}).
Proof.
  intros r. unfold r. clear r.
  assert (Hfail : forall st msg, st <> 401 ->
            ~ failure_with 401 {| status := st; success := false; content := Failure msg |}).
  { intros st msg Hst [m Hm]. congruence. }
  destruct (classify req) eqn:Hk.
  - (* create *)
    destruct (authenticate_cases API_KEY req) as [Ha | [m Ha]].
    + destruct (validateProduct_cases req) as [Hv | [mv Hv]].
      * right; left. split; [reflexivity | split; [exact Ha | ]].
        destruct (validated_fields req Hv) as (f & Hf & Hn & Hp & Hc).
        exists f. repeat split; try assumption.
        rewrite (app_created API_KEY req w Hk Ha Hv).
        rewrite (createProduct_valid req (logged req w) f Hf). reflexivity.
      * left. rewrite (app_rejected_body API_KEY req w _ (or_introl Hk) Ha Hv).
        cbn [final res]. split; [reflexivity | split].
        -- right; left. apply errorHandler_status. reflexivity.
        -- split; [intros [m Hm]; discriminate Hm | intros [Hna _]; congruence].
    + left. rewrite (app_rejected_key API_KEY req w _ (or_introl Hk) Ha).
      cbn [final res]. split; [reflexivity | split].
      * right; right; left. apply errorHandler_status. reflexivity.
      * split; [intros _; rewrite Ha; repeat split; discriminate
               | intros _; apply errorHandler_status; reflexivity].
  - (* update *)
    destruct (proj1 (proj2 (classify_inv req)) Hk) as (Hm & id & Hid).
    destruct (authenticate_cases API_KEY req) as [Ha | [m Ha]].
    + destruct (validateProduct_cases req) as [Hv | [mv Hv]].
      * destruct (validated_fields req Hv) as (f & Hf & Hn & Hp & Hc).
        rewrite (app_updated API_KEY req w id Hm Hid Ha Hv).
        destruct (first_match (has_id id) (products w))
          as [Hno | (pre & p & post & Hw & Hp' & Hpre)].
        -- left. rewrite updateProduct_missing by (apply no_match_Forall; exact Hno).
           cbn [final res fst snd reply]. split; [reflexivity | split].
           ++ right; right; right. apply errorHandler_status. reflexivity.
           ++ split; [intros [m Hm']; discriminate Hm' | intros [Hna _]; congruence].
        -- right; right; left. split; [reflexivity | split; [exact Ha | ]].
           exists id, f, pre, p, post.
           apply has_id_true in Hp'. apply no_match_Forall in Hpre.
           repeat split; try assumption.
           rewrite (updateProduct_first id req (logged req w) f pre p post Hf Hw Hp' Hpre).
           reflexivity.
      * left. rewrite (app_rejected_body API_KEY req w _ (or_intror Hk) Ha Hv).
        cbn [final res]. split; [reflexivity | split].
        -- right; left. apply errorHandler_status. reflexivity.
        -- split; [intros [m Hm']; discriminate Hm' | intros [Hna _]; congruence].
    + left. rewrite (app_rejected_key API_KEY req w _ (or_intror (or_introl Hk)) Ha).
      cbn [final res]. split; [reflexivity | split].
      * right; right; left. apply errorHandler_status. reflexivity.
      * split; [intros _; rewrite Ha; repeat split; discriminate
               | intros _; apply errorHandler_status; reflexivity].
  - (* delete *)
    destruct (proj2 (proj2 (classify_inv req)) Hk) as (Hm & id & Hid).
    destruct (authenticate_cases API_KEY req) as [Ha | [m Ha]].
    + rewrite (app_deleted API_KEY req w id Hm Hid Ha).
      destruct (first_match (has_id id) (products w))
        as [Hno | (pre & p & post & Hw & Hp' & Hpre)].
      * left. rewrite deleteProduct_missing by (apply no_match_Forall; exact Hno).
        cbn [final res fst snd reply]. split; [reflexivity | split].
        -- right; right; right. apply errorHandler_status. reflexivity.
        -- split; [intros [m Hm']; discriminate Hm' | intros [Hna _]; congruence].
      * right; right; right. split; [reflexivity | split; [exact Ha | ]].
        exists id, pre, p, post.
        apply has_id_true in Hp'. apply no_match_Forall in Hpre.
        repeat split; try assumption.
        rewrite (deleteProduct_first id (logged req w) pre p post Hw Hp' Hpre).
        reflexivity.
    + left. rewrite (app_rejected_key API_KEY req w _ (or_intror (or_intror Hk)) Ha).
      cbn [final res]. split; [reflexivity | split].
      * right; right; left. apply errorHandler_status. reflexivity.
      * split; [intros _; rewrite Ha; repeat split; discriminate
               | intros _; apply errorHandler_status; reflexivity].
  - (* read *)
    left. destruct (route_read_answers API_KEY req Hk) as (h & Hr & Hh).
    unfold app, chain. rewrite Hr. cbn [Datatypes.app].
    rewrite (run_next _ _ _ _ w (logged req w)) by reflexivity.
    destruct (Hh (logged req w)) as [[p Hp] | [m Hm]].
    + rewrite (run_send _ _ _ _ _ _ _ _ Hp). cbn [final res].
      split; [reflexivity | split; [left; eexists; reflexivity | ]].
      split; [intros [m Hm]; discriminate Hm | intros (_ & Hc & _); congruence].
    + rewrite (run_error _ _ _ _ _ _ _ _ Hm). cbn [final res].
      split; [reflexivity | split].
      * right; right; right. apply errorHandler_status. reflexivity.
      * split; [intros [m' Hm']; discriminate Hm' | intros (_ & Hc & _); congruence].
  - (* unmatched *)
    left. rewrite (app_unmatched API_KEY req w Hk). cbn [final res].
    split; [reflexivity | split].
    + right; right; right. apply errorHandler_status. reflexivity.
    + split; [intros [m Hm]; discriminate Hm | intros (_ & _ & Hc); congruence].
Qed.

(** X1: a request changes the collection only when it succeeds: a response
    with [success = false] leaves the collection as it was, and so does
    every request the authenticator rejects and every GET request. *)
Theorem only_successful_writes_mutate (API_KEY : option string) (req : request) (w : world) :
  let r := app API_KEY req w in
  (success (res r) = false -> products (final r) = products w)
  /\ (authenticate API_KEY req <> Next -> products (final r) = products w)
  /\ (req_method req = GET -> products (final r) = products w).
Proof.
  intros r.
  destruct (app_outcomes API_KEY req w)
    as [(Hf & _ & _) | [(Hk & Ha & f & _ & _ & _ & _ & Hr)
       | [(Hk & Ha & id & f & pre & p & post & _ & _ & _ & _ & _ & _ & _ & _ & Hr)
       | (Hk & Ha & id & pre & p & post & _ & _ & _ & _ & Hr)]]];
    fold r in Hf || fold r in Hr.
  - rewrite Hf. repeat split; reflexivity.
  - repeat split; intros H; exfalso.
    + rewrite Hr in H. discriminate H.
    + exact (H Ha).
    + destruct (proj1 (classify_inv req) Hk) as [Hm _]. congruence.
  - repeat split; intros H; exfalso.
    + rewrite Hr in H. discriminate H.
    + exact (H Ha).
    + destruct (proj1 (proj2 (classify_inv req)) Hk) as [Hm _]. congruence.
  - repeat split; intros H; exfalso.
    + rewrite Hr in H. discriminate H.
    + exact (H Ha).
    + destruct (proj2 (proj2 (classify_inv req)) Hk) as [Hm _]. congruence.
Qed.

Lemma only_successful_writes_mutate_witness :
  products (final (app (Some "secret") (delete_request (Some "guess") "1") sample_world))
  = products sample_world.
Proof.
  destruct (only_successful_writes_mutate (Some "secret") (delete_request (Some "guess") "1")
              sample_world) as (_ & Hrejected & _).
  apply Hrejected. vm_compute. discriminate.
Defined.



(** ** Delete, read and update by id *)

(** X3: an authenticated DELETE /api/products/:id removes the first record
    with that id and nothing else, keeps the order of the others and
    answers 200 with the removed record; when no record has the id it
    answers 404 "Product with ID ... not found" and removes nothing. *)
Theorem delete_removes_first_match (API_KEY : option string) (req : request) (w : world)
    (id : string) :
  req_method req = DELETE -> path req = ["api"; "products"; id] ->
  authenticate API_KEY req = Next ->
  let r := app API_KEY req w in
  (Forall (fun p => Product.id p <> id) (products w) ->
   res r = {| status := 404; success := false;
              content := Failure ("Product with ID " ++ id ++ " not found") |}
   /\ products (final r) = products w)
  /\ (forall pre p post,
        products w = (pre ++ p :: post)%list -> Product.id p = id ->
        Forall (fun x => Product.id x <> id) pre ->
        res r = {| status := 200; success := true;
                   content := Changed "Product deleted successfully" p |}
        /\ products (final r) = (pre ++ post)%list).
Proof.
  intros Hm Hp Ha r.
  assert (Hid : product_id (path req) = Some id) by (rewrite Hp; reflexivity).
  unfold r. rewrite (app_deleted API_KEY req w id Hm Hid Ha). cbn [res final]. split.
  - intros Hno. rewrite (deleteProduct_missing id (logged req w) Hno). split; reflexivity.
  - intros pre p post Hw Hpid Hpre.
    rewrite (deleteProduct_first id (logged req w) pre p post Hw Hpid Hpre).
    split; reflexivity.
Qed.

Lemma delete_removes_first_match_witness :
  products (final (app (Some "secret") (delete_request (Some "secret") "3") sample_world))
  = (take 2 sample_products ++ drop 3 sample_products)%list.
Proof.
  destruct (delete_removes_first_match (Some "secret") (delete_request (Some "secret") "3")
              sample_world "3" eq_refl eq_refl ltac:(vm_compute; reflexivity))
    as [_ Hfound].
  apply (Hfound (take 2 sample_products)
           (Product.mk "3" "Coffee Maker" "Programmable coffee maker with timer"
              (50 # 1) "kitchen" false)
           (drop 3 sample_products)).
  - reflexivity.
  - reflexivity.
  - repeat constructor; discriminate.
Defined.



(** X5: an authenticated PUT /api/products/:id with a valid body for an id
    that no record has answers 404 "Product with ID ... not found" and
    stores nothing: an update never creates a record. *)
Theorem update_unknown_id (API_KEY : option string) (req : request) (w : world)
    (id : string) :
  req_method req = PUT -> path req = ["api"; "products"; id] ->
  authenticate API_KEY req = Next -> validateProduct req = Next ->
  Forall (fun p => Product.id p <> id) (products w) ->
  let r := app API_KEY req w in
  res r = {| status := 404; success := false;
             content := Failure ("Product with ID " ++ id ++ " not found") |}
  /\ products (final r) = products w.
Proof.
  intros Hm Hp Ha Hv Hno r.
  assert (Hid : product_id (path req) = Some id) by (rewrite Hp; reflexivity).
  unfold r. rewrite (app_updated API_KEY req w id Hm Hid Ha Hv).
  rewrite (updateProduct_missing id req (logged req w) Hno). split; reflexivity.
Qed.

Lemma update_unknown_id_witness :
  res (app (Some "secret") (put_request (Some "secret") "999" valid_body) sample_world)
  = {| status := 404; success := false;
       content := Failure "Product with ID 999 not found" |}.
Proof.
  apply (update_unknown_id (Some "secret") (put_request (Some "secret") "999" valid_body)
           sample_world "999" eq_refl eq_refl).
  - vm_compute. reflexivity.
  - vm_compute. reflexivity.
  - repeat constructor; discriminate.
Defined.

(** ** Round trips *)

(** X6: a record created under an id that no stored record has can be read
    back: GET /api/products/:id with the new id answers 200 with exactly
    the record the create response carried. *)
Theorem created_record_is_read_back (API_KEY : option string) (req get : request)
    (w : world) :
  req_method req = POST -> path req = ["api"; "products"] ->
  authenticate API_KEY req = Next -> validateProduct req = Next ->
  Forall (fun p => Product.id p <> uuid req) (products w) ->
  uuid req <> "stats" ->
  req_method get = GET -> path get = ["api"; "products"; uuid req] ->
  exists created,
    Product.id created = uuid req
    /\ res (app API_KEY req w)
       = {| status := 201; success := true;
            content := Changed "Product created successfully" created |}
    /\ res (app API_KEY get (final (app API_KEY req w)))
       = {| status := 200; success := true; content := Single created |}.
Proof.
  intros Hm Hp Ha Hv Hfresh Hstats Hgm Hgp.
  destruct (validated_fields req Hv) as (f & Hf & _).
  assert (Hk : classify req = Create) by (apply classify_create; assumption).
  exists (normalized (uuid req) f (default true (f_inStock f))).
  rewrite (app_created API_KEY req w Hk Ha Hv).
  rewrite (createProduct_valid req (logged req w) f Hf). cbn [res final fst snd reply].
  split; [reflexivity | split; [reflexivity | ]].
  rewrite (app_got API_KEY get _ (uuid req) Hgm Hgp Hstats). cbn [res].
  erewrite getProduct_first; [reflexivity | | reflexivity | exact Hfresh].
  cbn [logged products push]. rewrite app_nil_r || reflexivity.
Qed.

Lemma created_record_is_read_back_witness :
  exists created,
    Product.id created = "a1b2c3d4"
    /\ res (app (Some "secret") (post_request (Some "secret") valid_body) sample_world)
       = {| status := 201; success := true;
            content := Changed "Product created successfully" created |}
    /\ res (app (Some "secret") (get_request "a1b2c3d4")
              (final (app (Some "secret") (post_request (Some "secret") valid_body)
                        sample_world)))
       = {| status := 200; success := true; content := Single created |}.
Proof.
  apply (created_record_is_read_back (Some "secret")
           (post_request (Some "secret") valid_body) (get_request "a1b2c3d4") sample_world
           eq_refl eq_refl).
  - vm_compute. reflexivity.
  - vm_compute. reflexivity.
  - repeat constructor; discriminate.
  - discriminate.
  - reflexivity.
  - reflexivity.
Defined.

(** X7: after a successful update the record can be read back: GET
    /api/products/:id answers 200 with exactly the record the update
    response carried, whether or not other records share the id. *)
Theorem updated_record_is_read_back (API_KEY : option string) (req get : request)
    (w : world) (id : string) :
  req_method req = PUT -> path req = ["api"; "products"; id] ->
  authenticate API_KEY req = Next -> validateProduct req = Next ->
  In id (ids (products w)) -> id <> "stats" ->
  req_method get = GET -> path get = ["api"; "products"; id] ->
  exists updated,
    Product.id updated = id
    /\ res (app API_KEY req w)
       = {| status := 200; success := true;
            content := Changed "Product updated successfully" updated |}
    /\ res (app API_KEY get (final (app API_KEY req w)))
       = {| status := 200; success := true; content := Single updated |}.
Proof.
  intros Hm Hp Ha Hv Hin Hstats Hgm Hgp.
  destruct (validated_fields req Hv) as (f & Hf & _).
  assert (Hid : product_id (path req) = Some id) by (rewrite Hp; reflexivity).
  destruct (first_match (has_id id) (products w))
    as [Hno | (pre & p & post & Hw & Hpid & Hpre)].
  - exfalso. unfold ids in Hin. apply in_map_iff in Hin. destruct Hin as (x & Hx & Hxin).
    rewrite Forall_forall in Hno. specialize (Hno x ltac:(apply list_elem_of_In; exact Hxin)).
    apply has_id_false in Hno. contradiction.
  - apply has_id_true in Hpid. apply no_match_Forall in Hpre.
    exists (normalized id f (default (Product.inStock p) (f_inStock f))).
    rewrite (app_updated API_KEY req w id Hm Hid Ha Hv).
    rewrite (updateProduct_first id req (logged req w) f pre p post Hf Hw Hpid Hpre).
    cbn [res final fst snd reply].
    split; [reflexivity | split; [reflexivity | ]].
    rewrite (app_got API_KEY get _ id Hgm Hgp Hstats). cbn [res].
    erewrite getProduct_first; [reflexivity | reflexivity | reflexivity | exact Hpre].
Qed.

Lemma updated_record_is_read_back_witness :
  exists updated,
    Product.id updated = "1"
    /\ res (app (Some "secret") put_valid stored_100)
       = {| status := 200; success := true;
            content := Changed "Product updated successfully" updated |}
    /\ res (app (Some "secret") (get_request "1") (final (app (Some "secret") put_valid
                                                            stored_100)))
       = {| status := 200; success := true; content := Single updated |}.
Proof.
  apply (updated_record_is_read_back (Some "secret") put_valid (get_request "1") stored_100
           "1" eq_refl eq_refl).
  - vm_compute. reflexivity.
  - vm_compute. reflexivity.
  - left. reflexivity.
  - discriminate.
  - reflexivity.
  - reflexivity.
Defined.




(** X9: creating a record under an id no stored record has and then
    deleting that id restores the collection exactly, and the delete
    response carries the record that was created. *)
Theorem create_then_delete_restores (API_KEY : option string) (req del : request)
    (w : world) :
  req_method req = POST -> path req = ["api"; "products"] ->
  authenticate API_KEY req = Next -> validateProduct req = Next ->
  Forall (fun p => Product.id p <> uuid req) (products w) ->
  req_method del = DELETE -> path del = ["api"; "products"; uuid req] ->
  authenticate API_KEY del = Next ->
  let created := final (app API_KEY req w) in
  products (final (app API_KEY del created)) = products w
  /\ exists p, res (app API_KEY req w)
               = {| status := 201; success := true;
                    content := Changed "Product created successfully" p |}
          /\ res (app API_KEY del created)
             = {| status := 200; success := true;
                  content := Changed "Product deleted successfully" p |}.
Proof.
  intros Hm Hp Ha Hv Hfresh Hdm Hdp Hda created.
  destruct (validated_fields req Hv) as (f & Hf & _).
  assert (Hk : classify req = Create) by (apply classify_create; assumption).
  assert (Hid : product_id (path del) = Some (uuid req)) by (rewrite Hdp; reflexivity).
  unfold created. rewrite (app_created API_KEY req w Hk Ha Hv).
  rewrite (createProduct_valid req (logged req w) f Hf). cbn [res final fst snd reply].
  rewrite (app_deleted API_KEY del _ (uuid req) Hdm Hid Hda).
  erewrite deleteProduct_first;
    [ | cbn [logged products push]; reflexivity | reflexivity | exact Hfresh ].
  cbn [res final fst snd reply products]. rewrite app_nil_r.
  split; [reflexivity | eexists; split; reflexivity].
Qed.

Lemma create_then_delete_restores_witness :
  products (final (app (Some "secret") (delete_request (Some "secret") "a1b2c3d4")
                     (final (app (Some "secret") (post_request (Some "secret") valid_body)
                               sample_world))))
  = products sample_world.
Proof.
  apply (create_then_delete_restores (Some "secret")
           (post_request (Some "secret") valid_body)
           (delete_request (Some "secret") "a1b2c3d4") sample_world eq_refl eq_refl).
  - vm_compute. reflexivity.
  - vm_compute. reflexivity.
  - repeat constructor; discriminate.
  - reflexivity.
  - reflexivity.
  - vm_compute. reflexivity.
Defined.

(** ** Invariants of the collection *)

Lemma ids_app (l k : list product) : ids (l ++ k) = (ids l ++ ids k)%list.
Proof. unfold ids. apply map_app. Qed.

(** X10: the ids of the stored records stay pairwise different under every
    request, provided a create request gets an id that no stored record
    has; and an update never changes the sequence of stored ids. *)
Theorem ids_stay_unique (API_KEY : option string) (req : request) (w : world) :
  List.NoDup (ids (products w)) ->
  (classify req = Create -> ~ In (uuid req) (ids (products w))) ->
  let r := app API_KEY req w in
  List.NoDup (ids (products (final r)))
  /\ (classify req = Update -> ids (products (final r)) = ids (products w)).
Proof.
  intros Hnd Hfresh r.
  destruct (app_outcomes API_KEY req w)
    as [(Hf & _ & _) | [(Hk & Ha & f & _ & _ & _ & _ & Hr)
       | [(Hk & Ha & id & f & pre & p & post & _ & _ & _ & _ & _ & Hw & Hp & _ & Hr)
       | (Hk & Ha & id & pre & p & post & _ & Hw & _ & _ & Hr)]]];
    fold r in Hf || fold r in Hr.
  - rewrite Hf. cbn [logged products]. split; [exact Hnd | reflexivity].
  - rewrite Hr. cbn [final products]. split; [ | intros Hu; congruence].
    unfold push. rewrite ids_app. cbn [ids map normalized Product.id].
    apply NoDup_rev in Hnd. rewrite <- (rev_involutive (_ ++ _)).
    apply NoDup_rev. rewrite rev_app_distr. cbn [rev Datatypes.app].
    constructor; [ | exact Hnd].
    rewrite <- in_rev. apply Hfresh. exact Hk.
  - rewrite Hr. cbn [final products].
    assert (Hsame : ids (pre ++ normalized id f (default (Product.inStock p) (f_inStock f))
                           :: post)
                    = ids (products w)).
    { rewrite Hw, !ids_app. cbn [ids map normalized Product.id]. rewrite Hp. reflexivity. }
    rewrite Hsame. split; [exact Hnd | reflexivity].
  - rewrite Hr. cbn [final products]. split; [ | intros Hu; congruence].
    rewrite Hw, ids_app in Hnd. cbn [ids map] in Hnd.
    rewrite ids_app. apply NoDup_remove_1 in Hnd. exact Hnd.
Qed.

Lemma ids_stay_unique_witness :
  List.NoDup (ids (products (final (app (Some "secret")
                                      (post_request (Some "secret") valid_body)
                                      sample_world)))).
Proof.
  apply (ids_stay_unique (Some "secret") (post_request (Some "secret") valid_body)
           sample_world).
  - vm_compute. repeat constructor; simpl; intuition discriminate.
  - intros _. vm_compute. intuition discriminate.
Defined.

Lemma lower_lower (c : ascii) : JsString.lower (JsString.lower c) = JsString.lower c.
Proof. destruct c as [[] [] [] [] [] [] [] []]; reflexivity. Qed.

Lemma is_space_lower (c : ascii) : JsString.is_space (JsString.lower c) = JsString.is_space c.
Proof. destruct c as [[] [] [] [] [] [] [] []]; reflexivity. Qed.

Lemma toLowerCase_idem (s : string) :
  JsString.toLowerCase (JsString.toLowerCase s) = JsString.toLowerCase s.
Proof. induction s as [ | c s IH]; simpl; [reflexivity | rewrite lower_lower, IH; reflexivity]. Qed.

Lemma toLowerCase_nonempty (s : string) : s <> "" -> JsString.toLowerCase s <> "".
Proof. destruct s; [congruence | discriminate]. Qed.

Lemma trimStart_lower (s : string) :
  JsString.trimStart (JsString.toLowerCase s) = JsString.toLowerCase (JsString.trimStart s).
Proof.
  induction s as [ | c s IH]; simpl; [reflexivity | ].
  rewrite is_space_lower. destruct (JsString.is_space c); [exact IH | reflexivity].
Qed.

Lemma trimEnd_lower (s : string) :
  JsString.trimEnd (JsString.toLowerCase s) = JsString.toLowerCase (JsString.trimEnd s).
Proof.
  induction s as [ | c s IH]; simpl; [reflexivity | ].
  rewrite IH, is_space_lower.
  destruct (JsString.trimEnd s); simpl; [destruct (JsString.is_space c) | ]; reflexivity.
Qed.

Lemma trimEnd_idem (s : string) : JsString.trimEnd (JsString.trimEnd s) = JsString.trimEnd s.
Proof.
  induction s as [ | c s IH]; simpl; [reflexivity | ].
  destruct (JsString.trimEnd s) as [ | d t] eqn:Ht.
  - destruct (JsString.is_space c) eqn:Hc; simpl; [reflexivity | rewrite Hc; reflexivity].
  - change (JsString.trimEnd (String c (String d t)))
      with (match JsString.trimEnd (String d t) with
            | EmptyString => if JsString.is_space c then EmptyString else String c EmptyString
            | t' => String c t'
            end).
    rewrite IH. reflexivity.
Qed.

(** [trimEnd] leaves the front of a string alone. *)
Lemma trimStart_trimEnd (s : string) :
  JsString.trimStart s = s -> JsString.trimStart (JsString.trimEnd s) = JsString.trimEnd s.
Proof.
  destruct s as [ | c s]; [reflexivity | ]. simpl.
  destruct (JsString.is_space c) eqn:Hc.
  - intros H. exfalso.
    assert (Hlen : forall t, (String.length (JsString.trimStart t) <= String.length t)%nat).
    { induction t as [ | d t IHt]; simpl; [lia | ].
      destruct (JsString.is_space d); simpl; lia. }
    pose proof (Hlen s) as Hl. rewrite H in Hl. simpl in Hl. lia.
  - intros _. destruct (JsString.trimEnd s); simpl; rewrite Hc; reflexivity.
Qed.

Lemma trimStart_idem (s : string) :
  JsString.trimStart (JsString.trimStart s) = JsString.trimStart s.
Proof.
  induction s as [ | c s IH]; simpl; [reflexivity | ].
  destruct (JsString.is_space c) eqn:Hc; [exact IH | simpl; rewrite Hc; reflexivity].
Qed.

Lemma trim_idem (s : string) : JsString.trim (JsString.trim s) = JsString.trim s.
Proof.
  unfold JsString.trim.
  rewrite (trimStart_trimEnd (JsString.trimStart s)) by apply trimStart_idem.
  apply trimEnd_idem.
Qed.

Lemma trim_lower (s : string) :
  JsString.trim (JsString.toLowerCase s) = JsString.toLowerCase (JsString.trim s).
Proof. unfold JsString.trim. rewrite trimStart_lower, trimEnd_lower. reflexivity. Qed.

Lemma normalized_well_formed (id : string) (f : fields) (inStock : bool) :
  JsString.trim (f_name f) <> "" -> (0 <= f_price f)%Q ->
  JsString.trim (f_category f) <> "" ->
  well_formed (normalized id f inStock).
Proof.
  intros Hn Hp Hc. unfold well_formed, normalized;
    cbn [Product.name Product.description Product.price Product.category].
  repeat split.
  - exact Hn.
  - apply trim_idem.
  - apply trim_idem.
  - exact Hp.
  - apply toLowerCase_nonempty. exact Hc.
  - rewrite trim_lower, trim_idem. reflexivity.
  - apply toLowerCase_idem.
Qed.

(** X11: every request keeps the stored records well formed: if each
    stored record has a non-empty name, a non-empty lower-case category, a
    non-negative price, and no white space around its name, description
    and category, then the same holds after the request. *)
Theorem records_stay_well_formed (API_KEY : option string) (req : request) (w : world) :
  Forall well_formed (products w) ->
  Forall well_formed (products (final (app API_KEY req w))).
Proof.
  intros Hwf.
  destruct (app_outcomes API_KEY req w)
    as [(Hf & _ & _) | [(Hk & Ha & f & _ & Hn & Hpr & Hc & Hr)
       | [(Hk & Ha & id & f & pre & p & post & _ & _ & Hn & Hpr & Hc & Hw & _ & _ & Hr)
       | (Hk & Ha & id & pre & p & post & _ & Hw & _ & _ & Hr)]]].
  - rewrite Hf. exact Hwf.
  - rewrite Hr. cbn [final products]. unfold push. apply Forall_app. split; [exact Hwf | ].
    constructor; [ | constructor]. apply normalized_well_formed; assumption.
  - rewrite Hr. cbn [final products]. rewrite Hw in Hwf.
    apply Forall_app in Hwf. destruct Hwf as [Hpre Hpost].
    apply Forall_cons in Hpost. destruct Hpost as [_ Hpost].
    apply Forall_app. split; [exact Hpre | ].
    constructor; [ | exact Hpost]. apply normalized_well_formed; assumption.
  - rewrite Hr. cbn [final products]. rewrite Hw in Hwf.
    apply Forall_app in Hwf. destruct Hwf as [Hpre Hpost].
    apply Forall_cons in Hpost. destruct Hpost as [_ Hpost].
    apply Forall_app. split; assumption.
Qed.

Lemma sample_products_well_formed : Forall well_formed sample_products.
Proof.
  repeat constructor; try discriminate; try reflexivity;
    apply Qle_bool_iff; reflexivity.
Qed.

Lemma records_stay_well_formed_witness :
  Forall well_formed
    (products (final (app (Some "secret") (post_request (Some "secret") valid_body)
                        sample_world))).
Proof.
  apply (records_stay_well_formed (Some "secret")
           (post_request (Some "secret") valid_body) sample_world).
  apply sample_products_well_formed.
Defined.

(** ** Query engine: what a listing contains *)

Lemma filter_if_truthy_In (param : option string) (keep : string -> product -> bool)
    (l : list product) (p : product) :
  In p (filter_if_truthy param keep l)
  <-> In p l /\ (forall s, param = Some s -> s <> "" -> keep s p = true).
Proof.
  unfold filter_if_truthy. destruct param as [s | ].
  - destruct s as [ | c s]; simpl.
    + split; [intros H; split; [exact H | intros s [= <-]; congruence] | tauto].
    + rewrite List.filter_In. split.
      * intros [Hin Hk]. split; [exact Hin | intros s' [= <-] _; exact Hk].
      * intros [Hin Hk]. split; [exact Hin | apply Hk; [reflexivity | discriminate]].
  - split; [intros H; split; [exact H | discriminate] | tauto].
Qed.

Lemma filterProducts_In (l : list product) (q : gmap string string) (p : product) :
  In p (filterProducts l q) <-> In p l /\ passes q p.
Proof.
  unfold filterProducts, passes.
  rewrite !filter_if_truthy_In.
  destruct (q !! "inStock") as [s | ] eqn:Hs.
  - rewrite List.filter_In, !filter_if_truthy_In, Bool.eqb_true_iff. split.
    + intros [[[[[Hin Hsearch] Hcat] Hstock] Hmin] Hmax].
      repeat split; try assumption. intros s' [= <-]. exact Hstock.
    + intros (Hin & Hsearch & Hcat & Hstock & Hmin & Hmax).
      repeat split; try assumption. apply Hstock. reflexivity.
  - rewrite !filter_if_truthy_In. split.
    + intros [[[[Hin Hsearch] Hcat] Hmin] Hmax].
      repeat split; try assumption. discriminate.
    + intros (Hin & Hsearch & Hcat & _ & Hmin & Hmax). repeat split; assumption.
Qed.

Lemma slice_infix {A : Type} (l : list A) (s e : Z) :
  exists pre post, l = (pre ++ slice l s e ++ post)%list.
Proof.
  unfold slice.
  set (k := Z.to_nat (if s <? 0 then _ else _)).
  set (n := Z.to_nat (Z.max _ 0)).
  exists (take k l), (drop n (drop k l)).
  rewrite (take_drop n (drop k l)), take_drop. reflexivity.
Qed.

Lemma paginate_In {A : Type} (l : list A) (page limit : Z) (x : A) :
  In x (paginate l page limit) -> In x l.
Proof.
  intros Hx. unfold paginate in Hx.
  destruct (slice_infix l ((page - 1) * limit) (page * limit)) as (pre & post & Hl).
  rewrite Hl. apply in_or_app. right. apply in_or_app. left. exact Hx.
Qed.

(** X12: a listing only returns stored records, and every record it
    returns passes all the filters the query asks for; the records left
    by the filter stages are exactly the stored records that pass them.
    In particular a returned record has the requested category up to
    case, is in stock exactly when [inStock] is the string "true", and its
    price respects the numeric bounds. *)
Theorem listing_is_sound (l : list product) (q : gmap string string) :
  (forall p, In p (fst (getProducts l q)) -> In p l /\ passes q p)
  /\ (forall p, In p (filterProducts l q) <-> In p l /\ passes q p)
  /\ (forall p, passes q p ->
        (forall s, q !! "category" = Some s -> s <> "" ->
           JsString.toLowerCase (Product.category p) = JsString.toLowerCase s)
        /\ (forall s m, q !! "minPrice" = Some s -> JsNumber.parseFloat s = JsNumber.Fin m ->
              (m <= Product.price p)%Q)
        /\ (forall s m, q !! "maxPrice" = Some s -> JsNumber.parseFloat s = JsNumber.Fin m ->
              (Product.price p <= m)%Q)).
Proof.
  split; [ | split].
  - intros p Hp. unfold getProducts in Hp; cbn [fst] in Hp.
    apply paginate_In in Hp.
    apply (Permutation_in _ (sortProducts_perm _ q)) in Hp.
    apply filterProducts_In. exact Hp.
  - intros p. apply filterProducts_In.
  - intros p (_ & Hcat & _ & Hmin & Hmax). split; [ | split].
    + intros s Hs Hne. apply String.eqb_eq. apply (Hcat s Hs Hne).
    + intros s m Hs Hm.
      assert (Hne : s <> "") by (intros ->; discriminate Hm).
      specialize (Hmin s Hs Hne). unfold matches_minPrice in Hmin. rewrite Hm in Hmin.
      apply Qle_bool_iff. exact Hmin.
    + intros s m Hs Hm.
      assert (Hne : s <> "") by (intros ->; discriminate Hm).
      specialize (Hmax s Hs Hne). unfold matches_maxPrice in Hmax. rewrite Hm in Hmax.
      apply Qle_bool_iff. exact Hmax.
Qed.

Lemma listing_is_sound_witness :
  In (Product.mk "2" "Smartphone" "Latest model with 128GB storage"
        (800 # 1) "electronics" true) sample_products
  /\ passes (query_of [("category", "Electronics"); ("maxPrice", "1000")])
       (Product.mk "2" "Smartphone" "Latest model with 128GB storage"
          (800 # 1) "electronics" true).
Proof.
  destruct (listing_is_sound sample_products
              (query_of [("category", "Electronics"); ("maxPrice", "1000")]))
    as [Hsound _].
  apply Hsound. vm_compute. left. reflexivity.
Defined.

(** X13: for every page and page size, of any sign, the slice a listing
    returns is a contiguous run of the sorted sequence: it never reorders,
    repeats or skips records inside the page. *)
Theorem page_is_contiguous (l : list product) (q : gmap string string) :
  exists before after,
    sortProducts (filterProducts l q) q
    = (before ++ fst (getProducts l q) ++ after)%list.
Proof. unfold getProducts, paginate; cbn [fst]. apply slice_infix. Qed.

(** X14: with a page and a page size of at least 1, a page never holds
    more records than the page size; every page before the last one is
    full, and the last page holds at least one record. *)
Theorem page_sizes (l : list product) (q : gmap string string) :
  1 <= page_of q -> 1 <= limit_of q ->
  let data := fst (getProducts l q) in
  let meta := snd (getProducts l q) in
  Z.of_nat (length data)
  = Z.max 0 (Z.min (limit_of q) (Page.totalProducts meta - (page_of q - 1) * limit_of q))
  /\ Z.of_nat (length data) <= limit_of q
  /\ (page_of q < Page.totalPages meta -> Z.of_nat (length data) = limit_of q)
  /\ (page_of q = Page.totalPages meta -> 1 <= Z.of_nat (length data)).
Proof.
  intros Hp Hl data meta. unfold data, meta, getProducts;
    cbn [fst snd Page.totalProducts Page.totalPages].
  rewrite paginate_take_drop by assumption.
  rewrite length_take, length_drop.
  set (sorted := sortProducts (filterProducts l q) q).
  pose proof (ceil_div_pos_bounds (Z.of_nat (length sorted)) (limit_of q) ltac:(lia)) as Hb.
  set (T := ceil_div (Z.of_nat (length sorted)) (limit_of q)) in *.
  repeat split; intros; nia.
Qed.

Lemma page_sizes_witness :
  Z.of_nat (length (fst (getProducts sample_products (query_of [("limit", "2"); ("page", "3")]))))
  <= 2.
Proof.
  apply (page_sizes sample_products (query_of [("limit", "2"); ("page", "3")]));
    vm_compute; discriminate.
Defined.

(** ** Query engine: sorting *)

Lemma insert_sorted_front {A : Type} (cmp : A -> A -> Z) (x : A) (l : list A) :
  (forall y, In y l -> cmp x y <= 0) -> insert_sorted cmp x l = x :: l.
Proof.
  destruct l as [ | y l]; [reflexivity | ]. intros H. simpl.
  destruct (0 <? cmp x y) eqn:Hc; [ | reflexivity].
  apply Z.ltb_lt in Hc. specialize (H y (or_introl eq_refl)). lia.
Qed.

Lemma sort_unordered {A : Type} (cmp : A -> A -> Z) (l : list A) :
  (forall x y, cmp x y <= 0) -> sort cmp l = l.
Proof.
  intros H. induction l as [ | x l IH]; simpl; [reflexivity | ].
  rewrite IH. apply insert_sorted_front. intros y _. apply H.
Qed.

Lemma field_lt_unknown (f : string) (a b : product) :
  ~ known_field f -> field_lt f a b = false.
Proof.
  unfold known_field, field_lt. intros H.
  repeat match goal with
         | |- context [String.eqb f ?k] =>
             destruct (String.eqb_spec f k) as [Heq | Hne]; [exfalso; tauto | clear Hne]
         end.
  reflexivity.
Qed.

(** X15: sorting by a field the records do not have (or by a member they
    inherit) changes nothing: the listing keeps the order the filters
    left, whatever [order] says, and the request does not fail. *)
Theorem unknown_sort_field_keeps_order (l : list product) (q : gmap string string)
    (f : string) :
  q !! "sortBy" = Some f -> ~ known_field f ->
  sortProducts l q = l.
Proof.
  intros Hq Hf. unfold sortProducts. rewrite Hq.
  destruct (JsString.truthy f); [ | reflexivity].
  apply sort_unordered. intros x y. unfold compareFn.
  rewrite !(field_lt_unknown f) by exact Hf. lia.
Qed.

Lemma unknown_sort_field_keeps_order_witness :
  sortProducts sample_products (query_of [("sortBy", "constructor"); ("order", "desc")])
  = sample_products.
Proof.
  apply (unknown_sort_field_keeps_order sample_products
           (query_of [("sortBy", "constructor"); ("order", "desc")]) "constructor").
  - reflexivity.
  - unfold known_field. intuition discriminate.
Defined.

(** Records that the comparator never ranks one above the other keep
    their relative order. *)
Lemma filter_insert_sorted {A : Type} (cmp : A -> A -> Z) (P : A -> bool) (x : A)
    (l : list A) :
  (forall y, P x = true -> P y = true -> cmp x y <= 0) ->
  List.filter P (insert_sorted cmp x l) = List.filter P (x :: l).
Proof.
  intros H. induction l as [ | y l IH]; [reflexivity | ].
  cbn [insert_sorted]. destruct (0 <? cmp x y) eqn:Hc; [ | reflexivity].
  apply Z.ltb_lt in Hc. cbn [List.filter]. rewrite IH. cbn [List.filter].
  destruct (P x) eqn:Hx, (P y) eqn:Hy; try reflexivity.
  specialize (H y eq_refl Hy). lia.
Qed.

Lemma filter_sort {A : Type} (cmp : A -> A -> Z) (P : A -> bool) (l : list A) :
  (forall x y, P x = true -> P y = true -> cmp x y <= 0) ->
  List.filter P (sort cmp l) = List.filter P l.
Proof.
  intros H. induction l as [ | x l IH]; [reflexivity | ].
  cbn [sort]. rewrite filter_insert_sorted by (intros y; apply H).
  cbn [List.filter]. rewrite IH. reflexivity.
Qed.

(** X16: the sort is stable: records among which none is smaller than
    another in the sort field (records with the same price when sorting by
    price, say) keep the relative order they had, ascending or
    descending. *)
Theorem sort_is_stable (l : list product) (q : gmap string string) (f : string)
    (P : product -> bool) :
  q !! "sortBy" = Some f ->
  (forall a b, P a = true -> P b = true -> field_lt f a b = false) ->
  List.filter P (sortProducts l q) = List.filter P l.
Proof.
  intros Hq HP. unfold sortProducts. rewrite Hq.
  destruct (JsString.truthy f); [ | reflexivity].
  apply filter_sort. intros x y Hx Hy. unfold compareFn.
  rewrite (HP x y Hx Hy), (HP y x Hy Hx). lia.
Qed.

Lemma sort_is_stable_witness :
  let electronics p := String.eqb (Product.category p) "electronics" in
  List.filter electronics
    (sortProducts sample_products (query_of [("sortBy", "category"); ("order", "desc")]))
  = List.filter electronics sample_products.
Proof.
  apply (sort_is_stable sample_products
           (query_of [("sortBy", "category"); ("order", "desc")]) "category").
  - reflexivity.
  - intros a b Ha Hb. apply String.eqb_eq in Ha, Hb.
    unfold field_lt. simpl. unfold JsString.lt. rewrite Ha, Hb. reflexivity.
Defined.

Lemma ascii_compare_refl (x : ascii) : Ascii.compare x x = Eq.
Proof. unfold Ascii.compare. apply N.compare_refl. Qed.

Lemma ascii_compare_lt_trans (x y z : ascii) :
  Ascii.compare x y = Lt -> Ascii.compare y z = Lt -> Ascii.compare x z = Lt.
Proof.
  unfold Ascii.compare. rewrite !N.compare_lt_iff. apply N.lt_trans.
Qed.

Lemma string_compare_lt_trans (a b c : string) :
  String.compare a b = Lt -> String.compare b c = Lt -> String.compare a c = Lt.
Proof.
  revert b c. induction a as [ | x a IH]; intros b c Hab Hbc.
  - destruct b as [ | y b]; [discriminate | ].
    destruct c as [ | z c]; [discriminate | reflexivity].
  - destruct b as [ | y b]; [discriminate | ].
    destruct c as [ | z c]; [discriminate | ].
    simpl in *.
    destruct (Ascii.compare x y) eqn:Hxy; [ | | discriminate].
    + apply Ascii.compare_eq_iff in Hxy. subst y.
      destruct (Ascii.compare x z) eqn:Hxz; [ | reflexivity | discriminate].
      apply (IH b c); assumption.
    + destruct (Ascii.compare y z) eqn:Hyz; [ | | discriminate].
      * apply Ascii.compare_eq_iff in Hyz. subst z. rewrite Hxy. reflexivity.
      * rewrite (ascii_compare_lt_trans x y z Hxy Hyz). reflexivity.
Qed.

Lemma string_ltb_asym (a b : string) : JsString.lt a b = true -> JsString.lt b a = false.
Proof.
  unfold JsString.lt, String.ltb. rewrite (String.compare_antisym a b).
  destruct (String.compare b a); simpl; congruence.
Qed.

Lemma string_ltb_negtrans (a b c : string) :
  JsString.lt b a = false -> JsString.lt c b = false -> JsString.lt c a = false.
Proof.
  unfold JsString.lt, String.ltb. intros Hba Hcb.
  destruct (String.compare c a) eqn:Hca; try reflexivity. exfalso.
  revert Hcb. destruct (String.compare c b) eqn:Hcb'; intros Hcb; [ | discriminate | ].
  - apply String.compare_eq_iff in Hcb'. subst c. rewrite Hca in Hba. discriminate.
  - assert (Hbc : String.compare b c = Lt).
    { rewrite (String.compare_antisym b c), Hcb'. reflexivity. }
    rewrite (string_compare_lt_trans b c a Hbc Hca) in Hba. discriminate.
Qed.

Lemma field_lt_asym (f : string) (a b : product) :
  field_lt f a b = true -> field_lt f b a = false.
Proof.
  unfold field_lt.
  repeat match goal with
         | |- context [String.eqb f ?k] => destruct (String.eqb f k)
         end; try apply string_ltb_asym; try discriminate.
  - intros H. apply negb_true_iff in H. apply negb_false_iff. apply Qle_bool_iff.
    destruct (Qlt_le_dec (Product.price a) (Product.price b)) as [Hlt | Hle].
    + apply Qlt_le_weak. exact Hlt.
    + apply Qle_bool_iff in Hle. congruence.
  - destruct (Product.inStock a), (Product.inStock b); simpl; congruence.
Qed.

Lemma field_lt_negtrans (f : string) (a b c : product) :
  field_lt f b a = false -> field_lt f c b = false -> field_lt f c a = false.
Proof.
  unfold field_lt.
  repeat match goal with
         | |- context [String.eqb f ?k] => destruct (String.eqb f k)
         end; try apply string_ltb_negtrans; try reflexivity.
  - rewrite !negb_false_iff, !Qle_bool_iff. intros H1 H2. eapply Qle_trans; eassumption.
  - destruct (Product.inStock a), (Product.inStock b), (Product.inStock c); simpl; congruence.
Qed.

Lemma ordered_insert_sorted {A : Type} (cmp : A -> A -> Z) (x : A) (l : list A) :
  (forall a b c, cmp a b <= 0 -> cmp b c <= 0 -> cmp a c <= 0) ->
  (forall a b, 0 < cmp a b -> cmp b a <= 0) ->
  ordered (fun a b => cmp a b <= 0) l ->
  ordered (fun a b => cmp a b <= 0) (insert_sorted cmp x l).
Proof.
  intros Htrans Hasym. induction l as [ | y l IH]; intros Hl.
  - simpl. split; [constructor | exact I].
  - cbn [insert_sorted]. destruct (0 <? cmp x y) eqn:Hc.
    + apply Z.ltb_lt in Hc. destruct Hl as [Hy Hl]. cbn [ordered]. split.
      * apply Forall_forall. intros z Hz. apply list_elem_of_In in Hz.
        apply (Permutation_in _ (insert_sorted_perm cmp x l)) in Hz.
        destruct Hz as [<- | Hz]; [apply Hasym; exact Hc | ].
        rewrite Forall_forall in Hy. apply Hy. apply list_elem_of_In. exact Hz.
      * apply IH. exact Hl.
    + apply Z.ltb_ge in Hc. cbn [ordered]. split; [ | exact Hl].
      destruct Hl as [Hy _]. constructor; [exact Hc | ].
      eapply Forall_impl; [exact Hy | ]. intros z Hz. apply (Htrans x y z); assumption.
Qed.

Lemma ordered_sort {A : Type} (cmp : A -> A -> Z) (l : list A) :
  (forall a b c, cmp a b <= 0 -> cmp b c <= 0 -> cmp a c <= 0) ->
  (forall a b, 0 < cmp a b -> cmp b a <= 0) ->
  ordered (fun a b => cmp a b <= 0) (sort cmp l).
Proof.
  intros Htrans Hasym. induction l as [ | x l IH]; [exact I | ].
  cbn [sort]. apply ordered_insert_sorted; assumption.
Qed.

Lemma ordered_impl {A : Type} (R S : A -> A -> Prop) (l : list A) :
  (forall a b, R a b -> S a b) -> ordered R l -> ordered S l.
Proof.
  intros H. induction l as [ | x l IH]; [trivial | ].
  intros [Hx Hl]. split; [eapply Forall_impl; [exact Hx | apply H] | apply IH; exact Hl].
Qed.

Lemma ordered_app {A : Type} (R : A -> A -> Prop) (l k : list A) :
  ordered R (l ++ k) -> ordered R l /\ ordered R k.
Proof.
  induction l as [ | x l IH]; [intros H; split; [exact I | exact H] | ].
  cbn [Datatypes.app ordered]. intros [Hx Hl]. destruct (IH Hl) as [H1 H2].
  apply Forall_app in Hx. destruct Hx as [Hx _].
  split; [split; assumption | exact H2].
Qed.

Lemma compareFn_asc (f : string) (a b : product) :
  compareFn f 1 a b <= 0 <-> field_lt f b a = false.
Proof.
  unfold compareFn. destruct (field_lt f a b) eqn:Hab.
  - rewrite (field_lt_asym f a b Hab). split; [reflexivity | lia].
  - destruct (field_lt f b a); split; intros H; try reflexivity; try lia; discriminate.
Qed.

Lemma compareFn_desc (f : string) (a b : product) :
  compareFn f (-1) a b <= 0 <-> field_lt f a b = false.
Proof.
  unfold compareFn. destruct (field_lt f a b) eqn:Hab.
  - split; [lia | discriminate].
  - destruct (field_lt f b a); split; intros H; try reflexivity; lia.
Qed.

(** X17: when [sortBy] is given, the sorted sequence and every page of it
    are in the order asked for: ascending by default, so that no record is
    followed by one that is smaller in the sort field, and descending when
    [order] is "desc", so that no record is followed by a larger one. *)
Theorem listing_is_ordered (l : list product) (q : gmap string string) (f : string) :
  q !! "sortBy" = Some f -> f <> "" ->
  ordered (in_order q f) (sortProducts (filterProducts l q) q)
  /\ ordered (in_order q f) (fst (getProducts l q)).
Proof.
  intros Hq Hf.
  assert (Hsorted : ordered (in_order q f) (sortProducts (filterProducts l q) q)).
  { unfold sortProducts, in_order. rewrite Hq, (truthy_nonempty f Hf).
    destruct (bool_decide (q !! "order" = Some "desc")).
    - eapply ordered_impl; [intros a b; apply compareFn_desc | ].
      apply ordered_sort.
      + intros a b c. rewrite !compareFn_desc. intros H1 H2.
        apply (field_lt_negtrans f c b a); assumption.
      + intros a b H. apply compareFn_desc.
        destruct (field_lt f b a) eqn:Hba; [ | reflexivity].
        exfalso. unfold compareFn in H. rewrite Hba, (field_lt_asym f b a Hba) in H. lia.
    - eapply ordered_impl; [intros a b; apply compareFn_asc | ].
      apply ordered_sort.
      + intros a b c. rewrite !compareFn_asc. intros H1 H2.
        apply (field_lt_negtrans f a b c); assumption.
      + intros a b H. apply compareFn_asc.
        destruct (field_lt f a b) eqn:Hab; [ | reflexivity].
        exfalso. unfold compareFn in H. rewrite Hab in H. lia. }
  split; [exact Hsorted | ].
  unfold getProducts, paginate; cbn [fst].
  destruct (slice_infix (sortProducts (filterProducts l q) q)
              ((page_of q - 1) * limit_of q) (page_of q * limit_of q))
    as (pre & post & Hl).
  rewrite Hl in Hsorted at 1.
  apply ordered_app in Hsorted. destruct Hsorted as [_ Hrest].
  apply ordered_app in Hrest. destruct Hrest as [Hpage _]. exact Hpage.
Qed.

Lemma listing_is_ordered_witness :
  ordered (in_order (query_of [("sortBy", "name"); ("order", "desc")]) "name")
    (fst (getProducts sample_products (query_of [("sortBy", "name"); ("order", "desc")]))).
Proof.
  apply (listing_is_ordered sample_products
           (query_of [("sortBy", "name"); ("order", "desc")]) "name");
    [reflexivity | discriminate].
Defined.

(** ** Query engine: which parameters matter *)

Lemma filter_if_truthy_ext (p1 p2 : option string) (keep : string -> product -> bool)
    (l : list product) :
  if_truthy p1 = if_truthy p2 -> filter_if_truthy p1 keep l = filter_if_truthy p2 keep l.
Proof.
  unfold if_truthy, filter_if_truthy. intros H.
  destruct p1 as [s1 | ], p2 as [s2 | ];
    try destruct (JsString.truthy s1); try destruct (JsString.truthy s2);
    congruence.
Qed.

(** A listing depends on the query through nine parameters only, and on
    the five guarded ones only when they are not empty. *)
Lemma getProducts_ext (l : list product) (q1 q2 : gmap string string) :
  if_truthy (q1 !! "search") = if_truthy (q2 !! "search") ->
  if_truthy (q1 !! "category") = if_truthy (q2 !! "category") ->
  q1 !! "inStock" = q2 !! "inStock" ->
  if_truthy (q1 !! "minPrice") = if_truthy (q2 !! "minPrice") ->
  if_truthy (q1 !! "maxPrice") = if_truthy (q2 !! "maxPrice") ->
  if_truthy (q1 !! "sortBy") = if_truthy (q2 !! "sortBy") ->
  bool_decide (q1 !! "order" = Some "desc") = bool_decide (q2 !! "order" = Some "desc") ->
  page_of q1 = page_of q2 -> limit_of q1 = limit_of q2 ->
  getProducts l q1 = getProducts l q2.
Proof.
  intros Hsearch Hcat Hstock Hmin Hmax Hsort Horder Hpage Hlimit.
  assert (Hf : filterProducts l q1 = filterProducts l q2).
  { unfold filterProducts. rewrite Hstock.
    rewrite (filter_if_truthy_ext _ _ matches_search l Hsearch).
    rewrite (filter_if_truthy_ext _ _ matches_category _ Hcat).
    rewrite (filter_if_truthy_ext _ _ matches_minPrice _ Hmin).
    rewrite (filter_if_truthy_ext _ _ matches_maxPrice _ Hmax).
    reflexivity. }
  assert (Hs : forall k, sortProducts k q1 = sortProducts k q2).
  { intros k. unfold sortProducts. rewrite Horder. unfold if_truthy in Hsort.
    destruct (q1 !! "sortBy") as [s1 | ], (q2 !! "sortBy") as [s2 | ];
      try destruct (JsString.truthy s1) eqn:H1; try destruct (JsString.truthy s2) eqn:H2;
      congruence. }
  unfold getProducts. rewrite Hf, Hs, Hpage, Hlimit. reflexivity.
Qed.

(** X18: an empty value of any query parameter other than [inStock] is the
    same as leaving the parameter out, and a parameter the route does not
    know is ignored whatever its value.  ([inStock] differs: every value
    other than "true", the empty one included, selects the records that
    are out of stock.) *)
Theorem empty_and_unknown_parameters (l : list product) (q : gmap string string)
    (k v : string) :
  (k <> "inStock" -> getProducts l (<[k := ""]> q) = getProducts l (delete k q))
  /\ (~ In k listing_params -> getProducts l (<[k := v]> q) = getProducts l q)
  /\ (forall p, In p (fst (getProducts l (<["inStock" := ""]> q))) ->
        Product.inStock p = false).
Proof.
  split; [ | split].
  - intros Hk.
    destruct (decide (k = "search")) as [-> | ?];
      [ | destruct (decide (k = "category")) as [-> | ?];
      [ | destruct (decide (k = "minPrice")) as [-> | ?];
      [ | destruct (decide (k = "maxPrice")) as [-> | ?];
      [ | destruct (decide (k = "sortBy")) as [-> | ?];
      [ | destruct (decide (k = "order")) as [-> | ?];
      [ | destruct (decide (k = "page")) as [-> | ?];
      [ | destruct (decide (k = "limit")) as [-> | ?]]]]]]]];
      apply getProducts_ext; unfold page_of, limit_of; lookup_simpl; reflexivity.
  - intros Hk. unfold listing_params in Hk. cbn [In] in Hk.
    apply getProducts_ext; unfold page_of, limit_of;
      rewrite lookup_insert_ne by (intros ->; tauto); reflexivity.
  - intros p Hp.
    assert (Hpass : passes (<["inStock" := ""]> q) p).
    { unfold getProducts in Hp; cbn [fst] in Hp. apply paginate_In in Hp.
      apply (Permutation_in _ (sortProducts_perm _ _)) in Hp.
      apply filterProducts_In in Hp. apply Hp. }
    destruct Hpass as (_ & _ & Hstock & _).
    apply (Hstock ""). apply lookup_insert_eq.
Qed.

Lemma empty_and_unknown_parameters_witness :
  getProducts sample_products (<["sortBy" := ""]> (query_of [("limit", "2")]))
  = getProducts sample_products (delete "sortBy" (query_of [("limit", "2")])).
Proof.
  destruct (empty_and_unknown_parameters sample_products (query_of [("limit", "2")])
              "sortBy" "") as [Hempty _].
  apply Hempty. discriminate.
Defined.

(** ** Statistics: totals and categories *)

Lemma fold_prices_shift (l : list product) (a : Q) :
  (fold_left (fun sum p => sum + Product.price p) l a == a + sum_prices l)%Q.
Proof.
  unfold sum_prices. revert a. induction l as [ | x l IH]; intros a; simpl; [ring | ].
  rewrite (IH (a + Product.price x)%Q), (IH (0 + Product.price x)%Q). ring.
Qed.

Lemma count_product_other (m : gmap string Stats.entry) (p : product) (c : string) :
  Product.category p <> c -> count_product m p !! c = m !! c.
Proof.
  intros Hc. unfold count_product.
  destruct (lookup_is_falsy m (Product.category p)).
  - rewrite lookup_insert_eq. rewrite !lookup_insert_ne by exact Hc. reflexivity.
  - destruct (m !! Product.category p); [ | reflexivity].
    rewrite lookup_insert_ne by exact Hc. reflexivity.
Qed.

Lemma count_product_same (m : gmap string Stats.entry) (p : product) :
  inherited (Product.category p) = false ->
  count_product m p !! Product.category p
  = Some (Stats.mkEntry
            (Stats.count (default (Stats.mkEntry 0 0) (m !! Product.category p)) + 1)
            (Stats.value (default (Stats.mkEntry 0 0) (m !! Product.category p))
             + Product.price p)).
Proof.
  intros Hown. unfold count_product, lookup_is_falsy. rewrite Hown.
  destruct (m !! Product.category p) as [e | ] eqn:He; cbn [negb].
  - rewrite He, lookup_insert_eq. reflexivity.
  - rewrite lookup_insert_eq, lookup_insert_eq. reflexivity.
Qed.

Lemma count_product_inherited (m : gmap string Stats.entry) (p : product) (c : string) :
  inherited c = true -> m !! c = None -> count_product m p !! c = None.
Proof.
  intros Hc Hm. destruct (String.eqb_spec (Product.category p) c) as [Heq | Hne].
  - unfold count_product, lookup_is_falsy. rewrite Heq, Hm, Hc. cbn [negb].
    rewrite Hm. exact Hm.
  - rewrite count_product_other by exact Hne. exact Hm.
Qed.

Lemma fold_count_inherited (l : list product) (m : gmap string Stats.entry) (c : string) :
  inherited c = true -> m !! c = None -> fold_left count_product l m !! c = None.
Proof.
  intros Hc. revert m. induction l as [ | p l IH]; intros m Hm; [exact Hm | ].
  cbn [fold_left]. apply IH. apply count_product_inherited; assumption.
Qed.

Lemma fold_count_category (l : list product) (m : gmap string Stats.entry) (c : string) :
  inherited c = false ->
  (List.filter (in_category c) l = [] -> fold_left count_product l m !! c = m !! c)
  /\ (List.filter (in_category c) l <> [] ->
      exists e, fold_left count_product l m !! c = Some e
        /\ Stats.count e
           = Stats.count (default (Stats.mkEntry 0 0) (m !! c))
             + Z.of_nat (length (List.filter (in_category c) l))
        /\ (Stats.value e
            == Stats.value (default (Stats.mkEntry 0 0) (m !! c))
               + sum_prices (List.filter (in_category c) l))%Q).
Proof.
  intros Hc. revert m. induction l as [ | p l IH]; intros m.
  - split; [reflexivity | intros H; contradiction H; reflexivity].
  - cbn [fold_left List.filter].
    destruct (in_category c p) eqn:Hcp; unfold in_category in Hcp;
      [apply String.eqb_eq in Hcp as Heq | apply String.eqb_neq in Hcp as Hne].
    + split; [discriminate | intros _].
      destruct (IH (count_product m p)) as [Hnone Hsome].
      assert (Hstep := count_product_same m p ltac:(rewrite Heq; exact Hc)).
      rewrite Heq in Hstep.
      destruct (List.filter (in_category c) l) as [ | x rest] eqn:Hfl.
      * eexists. split; [rewrite (Hnone eq_refl); exact Hstep | ].
        cbn [Stats.count Stats.value length]. split; [lia | unfold sum_prices; simpl; ring].
      * destruct (Hsome ltac:(discriminate)) as (e & He & Hcount & Hvalue).
        exists e. split; [exact He | ]. rewrite Hstep in Hcount, Hvalue.
        cbn [from_option id Stats.count Stats.value] in Hcount, Hvalue.
        split.
        -- rewrite Hcount. cbn [length]. lia.
        -- rewrite Hvalue. unfold sum_prices at 2. cbn [fold_left].
           rewrite (fold_prices_shift (x :: rest) (0 + Product.price p)%Q). ring.
    + destruct (IH (count_product m p)) as [Hnone Hsome].
      rewrite (count_product_other m p c Hne) in Hnone, Hsome.
      split; assumption.
Qed.

(** X19: the entry of a category in [byCategory] counts the stored records
    of exactly that category and adds up their prices; a category no
    record has gets no entry; and a category that names a member of
    [Object.prototype] never gets one. *)
Theorem stats_by_category (l : list product) (c : string) :
  (inherited c = true -> Stats.byCategory (getStats l) !! c = None)
  /\ (inherited c = false ->
      match Stats.byCategory (getStats l) !! c with
      | None => Forall (fun p => Product.category p <> c) l
      | Some e =>
          Stats.count e = Z.of_nat (length (List.filter (in_category c) l))
          /\ 0 < Stats.count e
          /\ (Stats.value e == sum_prices (List.filter (in_category c) l))%Q
      end).
Proof.
  unfold getStats; cbn [Stats.byCategory]. split.
  - intros Hc. apply fold_count_inherited; [exact Hc | apply lookup_empty].
  - intros Hc. destruct (fold_count_category l ∅ c Hc) as [Hnone Hsome].
    destruct (List.filter (in_category c) l) as [ | x rest] eqn:Hfl.
    + rewrite (Hnone eq_refl), lookup_empty.
      apply Forall_forall. intros p Hp Heq.
      assert (Hin : In p (List.filter (in_category c) l)).
      { apply List.filter_In. split; [apply list_elem_of_In; exact Hp | ].
        apply String.eqb_eq. exact Heq. }
      rewrite Hfl in Hin. exact Hin.
    + destruct (Hsome ltac:(discriminate)) as (e & He & Hcount & Hvalue).
      rewrite He. rewrite lookup_empty in Hcount, Hvalue.
      cbn [from_option id Stats.count Stats.value] in Hcount, Hvalue.
      split; [rewrite Hcount; lia | split; [rewrite Hcount; cbn [length]; lia | ]].
      rewrite Hvalue. ring.
Qed.

Lemma stats_by_category_witness :
  match Stats.byCategory (getStats sample_products) !! "electronics" with
  | None => Forall (fun p => Product.category p <> "electronics") sample_products
  | Some e =>
      Stats.count e
      = Z.of_nat (length (List.filter (in_category "electronics") sample_products))
      /\ 0 < Stats.count e
      /\ (Stats.value e
          == sum_prices (List.filter (in_category "electronics") sample_products))%Q
  end.
Proof.
  apply (stats_by_category sample_products "electronics"). reflexivity.
Defined.




(** ** The accepted bodies *)

Lemma name_invalid_str (n : string) :
  JsString.trim n <> "" -> name_invalid (VStr n) = false.
Proof.
  intros Hn. unfold name_invalid. cbn [truthy typeof trim_is_empty].
  destruct n as [ | a n]; [contradiction Hn; reflexivity | ].
  destruct (JsString.trim (String a n)); [contradiction Hn; reflexivity | reflexivity].
Qed.

Lemma description_invalid_str (d : string) :
  d <> "" -> description_invalid (VStr d) = false.
Proof. intros Hd. destruct d; [contradiction Hd; reflexivity | reflexivity]. Qed.

Lemma price_invalid_num (pr : Q) :
  (0 <= pr)%Q -> price_invalid (VNum pr) = false.
Proof.
  intros Hp. unfold price_invalid. cbn [is_undefined typeof is_negative].
  apply Qle_bool_iff in Hp. rewrite Hp. reflexivity.
Qed.

(** X22: the validator calls [next()] exactly for the bodies whose name and
    category are strings with something other than white space in them,
    whose description is a non-empty string, whose price is a number that
    is not negative, and whose inStock field is absent or a boolean.  So a
    price of 0 and a description of white space only are accepted. *)
Theorem validateProduct_accepts (req : request) :
  validateProduct req = Next
  <-> (exists n d pr c,
         get (body req) "name" = VStr n /\ JsString.trim n <> ""
         /\ get (body req) "description" = VStr d /\ d <> ""
         /\ get (body req) "price" = VNum pr /\ (0 <= pr)%Q
         /\ get (body req) "category" = VStr c /\ JsString.trim c <> "")
      /\ (get (body req) "inStock" = VUndefined
          \/ exists i, get (body req) "inStock" = VBool i).
Proof.
  split.
  - intros Hv.
    destruct (validated_body req Hv)
      as (n & d & pr & c & Hn & Hn' & Hd & Hd' & Hp & Hp' & Hc & Hc' & Hf).
    split; [exists n, d, pr, c; repeat split; assumption | ].
    unfold destructure in Hf. rewrite Hn, Hd, Hp, Hc in Hf.
    destruct (get (body req) "inStock"); try discriminate; eauto.
  - intros [(n & d & pr & c & Hn & Hn' & Hd & Hd' & Hp & Hp' & Hc & Hc') Hi].
    unfold validateProduct, validation_errors. rewrite Hn, Hd, Hp, Hc.
    rewrite (name_invalid_str n Hn'), (description_invalid_str d Hd'),
      (price_invalid_num pr Hp').
    change (category_invalid (VStr c)) with (name_invalid (VStr c)).
    rewrite (name_invalid_str c Hc').
    destruct Hi as [-> | [i ->]]; reflexivity.
Qed.

(** ** Fields the handlers do not read *)

Lemma get_insert_other (b : gmap string value) (k k' : string) (v : value) :
  k <> k' -> get (<[k := v]> b) k' = get b k'.
Proof. intros Hk. unfold get. rewrite lookup_insert_ne by exact Hk. reflexivity. Qed.

Lemma validation_errors_insert (b : gmap string value) (k : string) (v : value) :
  ~ In k body_fields -> validation_errors (<[k := v]> b) = validation_errors b.
Proof.
  intros Hk. unfold validation_errors.
  rewrite !get_insert_other by other_field Hk. reflexivity.
Qed.

Lemma destructure_insert (b : gmap string value) (k : string) (v : value) :
  ~ In k body_fields -> destructure (<[k := v]> b) = destructure b.
Proof.
  intros Hk. unfold destructure.
  rewrite !get_insert_other by other_field Hk. reflexivity.
Qed.

Lemma run_ext (ls : list layer) (req req' : request) :
  req_method req' = req_method req -> url req' = url req ->
  Forall (fun l : layer => forall w, snd l req' w = snd l req w) ls ->
  forall w ran, run ls req' w ran = run ls req w ran.
Proof.
  intros Hm Hu Hls. induction Hls as [ | [s f] ls Hf _ IH]; intros w ran.
  - cbn [run]. rewrite Hm, Hu. reflexivity.
  - cbn [run]. cbn [snd] in Hf. rewrite Hf.
    destruct (f req w) as [[ | e | r] w']; [apply IH | reflexivity | reflexivity].
Qed.

(** X23: a body field other than name, description, price, category and
    inStock is read by nothing: adding one (an [id], for instance) or
    changing its value changes neither the response nor the stored
    collection, on any route. *)
Theorem unknown_body_fields_ignored (API_KEY : option string) (req : request) (w : world)
    (k : string) (v : value) :
  ~ In k body_fields ->
  app API_KEY (with_body (<[k := v]> (body req)) req) w = app API_KEY req w.
Proof.
  intros Hk. unfold app, chain.
  change (route_stack API_KEY (with_body (<[k := v]> (body req)) req))
    with (route_stack API_KEY req).
  apply run_ext; [reflexivity | reflexivity | ].
  assert (Hv : validateProduct (with_body (<[k := v]> (body req)) req) = validateProduct req).
  { unfold validateProduct. cbn [with_body body].
    rewrite (validation_errors_insert _ _ _ Hk). reflexivity. }
  assert (Hc : forall w0, createProduct (with_body (<[k := v]> (body req)) req) w0
                          = createProduct req w0).
  { intros w0. unfold createProduct. cbn [with_body body uuid].
    rewrite (destructure_insert _ _ _ Hk). reflexivity. }
  assert (Hu : forall id w0, updateProduct id (with_body (<[k := v]> (body req)) req) w0
                             = updateProduct id req w0).
  { intros id w0. unfold updateProduct. cbn [with_body body].
    rewrite (destructure_insert _ _ _ Hk). reflexivity. }
  apply Forall_app. split; [ | apply Forall_app; split].
  2: unfold route_stack; destruct (req_method req);
       repeat case_bool_decide; try (destruct (product_id (path req))).
  all: repeat match goal with
       | |- Forall _ [] => constructor
       | |- Forall _ (_ :: _) =>
           constructor;
           [ cbn [snd pure_layer]; intros w0;
             first [reflexivity | rewrite Hv; reflexivity | apply Hc | apply Hu] | ]
       end.
Qed.

Lemma unknown_body_fields_ignored_witness :
  app (Some "secret")
      (with_body (<["id" := VStr "42"]> (body (post_request (Some "secret") valid_body)))
                 (post_request (Some "secret") valid_body)) sample_world
  = app (Some "secret") (post_request (Some "secret") valid_body) sample_world.
Proof.
  apply (unknown_body_fields_ignored (Some "secret")
           (post_request (Some "secret") valid_body) sample_world "id" (VStr "42")).
  cbn. intuition discriminate.
Defined.

(** ** Routes and keys *)

(** X24: when the server has no API key configured (the variable is unset
    or empty), the authenticator rejects every request, so no request
    whatever changes the stored collection. *)
Theorem unconfigured_key_locks_writes (API_KEY : option string) (req : request)
    (w : world) :
  API_KEY = None \/ API_KEY = Some "" ->
  authenticate API_KEY req <> Next
  /\ products (final (app API_KEY req w)) = products w.
Proof.
  intros HK.
  assert (Ha : authenticate API_KEY req <> Next).
  { unfold authenticate. destruct (x_api_key req) as [[ | a k] | ]; cbn; try discriminate.
    rewrite bool_decide_eq_false_2 by (destruct HK as [-> | ->]; discriminate).
    discriminate. }
  split; [exact Ha | ].
  destruct (app_outcomes API_KEY req w)
    as [(Hf & _) | [(_ & Hn & _) | [(_ & Hn & _) | (_ & Hn & _)]]];
    try contradiction.
  rewrite Hf. reflexivity.
Qed.

Lemma unconfigured_key_locks_writes_witness :
  products (final (app None (post_request (Some "secret") valid_body) sample_world))
  = products sample_world.
Proof.
  apply (unconfigured_key_locks_writes None (post_request (Some "secret") valid_body)
           sample_world).
  left. reflexivity.
Defined.

(** X25: a request that matches no route (POST /api/products/:id or PUT
    /api/products, for instance) is answered by the catch-all with 404
    "Route not found", whatever its key and body, and the stored
    collection is left as it was. *)
Theorem unmatched_route_not_found (API_KEY : option string) (req : request) (w : world) :
  classify req = Unmatched ->
  res (app API_KEY req w)
  = {| status := 404; success := false; content := Failure "Route not found" |}
  /\ products (final (app API_KEY req w)) = products w.
Proof.
  intros Hk. rewrite (app_unmatched API_KEY req w Hk). split; reflexivity.
Qed.

Lemma unmatched_route_not_found_witness :
  res (app (Some "secret")
         (on_route POST ["api"; "products"; "1"] (post_request (Some "secret") valid_body))
         sample_world)
  = {| status := 404; success := false; content := Failure "Route not found" |}.
Proof.
  apply (unmatched_route_not_found (Some "secret")
           (on_route POST ["api"; "products"; "1"]
              (post_request (Some "secret") valid_body)) sample_world).
  reflexivity.
Defined.

(** X26: GET /api/products/stats always answers with the statistics of the
    stored collection: the route is registered in front of
    /api/products/:id, so a record whose id is "stats" cannot be read by
    its id. *)
Theorem stats_route_shadows_id (API_KEY : option string) (req : request) (w : world) :
  req_method req = GET -> path req = ["api"; "products"; "stats"] ->
  res (app API_KEY req w)
  = {| status := 200; success := true; content := Statistics (getStats (products w)) |}
  /\ products (final (app API_KEY req w)) = products w.
Proof.
  intros Hm Hp. unfold app, chain, route_stack. rewrite Hm, Hp.
  rewrite !bool_decide_eq_false_2 by discriminate.
  rewrite bool_decide_eq_true_2 by reflexivity.
  split; reflexivity.
Qed.

Lemma stats_route_shadows_id_witness :
  res (app None stats_request
         {| products := [normalized "stats" sample_fields true]; console := [] |})
  = {| status := 200; success := true;
       content := Statistics (getStats [normalized "stats" sample_fields true]) |}.
Proof.
  apply (stats_route_shadows_id None stats_request
           {| products := [normalized "stats" sample_fields true]; console := [] |});
    reflexivity.
Defined.
